(** * kobold: task queue, worker policy, path templating and organizer

    A shallow embedding of
      - [kobold/task_queue.py]   (module [TaskQueue]),
      - [kobold/worker.py]       (module [Worker]),
      - [kobold/utils/paths.py]  (modules [PyStr], [Pathlib], [Paths]),
      - [kobold/organizer.py]    (modules [Sys], [Organizer]),
      - [kobold/services/organization_service.py] (module [OrganizationService]),
    followed by the properties of these functions that the specification
    states, numbered C1 to C10.

    Conventions.
      - A [datetime] is an integer number of microseconds ([Z]) and a
        [timedelta] a difference of two such numbers; the range limits of
        Python's [datetime] and [timedelta] are not modelled.
      - The [task] table is a finite map from primary keys to rows.  The
        columns [retry_count] and [max_retries] hold natural numbers: they
        start at 0 and 3 and are only ever incremented.  kobold/models.py is
        not among the sources; rows carry the columns the data model lists.
      - A Python [str] is a [string]; its characters are read as the code
        points 0..255.  Text algorithms run on [list ascii], between [chars]
        and [text].
      - The file system is an interface ([Sys.FileSystem]); every property of
        the organizer holds for all its implementations.  Calls that change
        the file system are recorded in the order they are made. *)

From Stdlib Require Import ZArith List Ascii String Lia Bool.
From stdpp Require Import base option list gmap strings pretty.

#[local] Open Scope string_scope.
#[local] Open Scope list_scope.
#[local] Open Scope Z_scope.

(** ** Rows of the [task] table (kobold/models.py, as used by the queue) *)

Module Models.

(** Modelled from the spec: the enumeration [TaskStatus] of
    kobold/models.py, which is not among the sources; its five members are
    the ones the queue and the worker name. *)
Inductive TaskStatus : Set :=
| PENDING
| PROCESSING
| COMPLETED
| FAILED
| DEAD_LETTER.

#[global] Instance TaskStatus_eq_dec : EqDecision TaskStatus.
Proof. solve_decision. Defined.

(** A primary key (a UUID, 128 bits). *)
Definition UUID : Type := N.

(** Timestamps in microseconds. *)
Definition datetime : Type := Z.

Definition timedelta_seconds (s : Z) : Z := s * 1000000.
Definition timedelta_minutes (m : Z) : Z := timedelta_seconds (m * 60).

(** Modelled from the spec: the table class [Task] of kobold/models.py
    (section 3 of the specification), without its primary key [id], which is
    the key of the row in the table. *)
Record Task : Type := mkTask {
  task_type : string;
  payload : gmap string string;
  status : TaskStatus;
  retry_count : nat;
  max_retries : nat;
  created_at : datetime;
  started_at : option datetime;
  completed_at : option datetime;
  next_retry_at : option datetime;
  error_message : option string
}.

Definition set_status (s : TaskStatus) (t : Task) : Task :=
  mkTask (task_type t) (payload t) s (retry_count t) (max_retries t)
         (created_at t) (started_at t) (completed_at t) (next_retry_at t)
         (error_message t).

Definition set_retry_count (n : nat) (t : Task) : Task :=
  mkTask (task_type t) (payload t) (status t) n (max_retries t)
         (created_at t) (started_at t) (completed_at t) (next_retry_at t)
         (error_message t).

Definition set_started_at (d : option datetime) (t : Task) : Task :=
  mkTask (task_type t) (payload t) (status t) (retry_count t) (max_retries t)
         (created_at t) d (completed_at t) (next_retry_at t)
         (error_message t).

Definition set_completed_at (d : option datetime) (t : Task) : Task :=
  mkTask (task_type t) (payload t) (status t) (retry_count t) (max_retries t)
         (created_at t) (started_at t) d (next_retry_at t)
         (error_message t).

Definition set_next_retry_at (d : option datetime) (t : Task) : Task :=
  mkTask (task_type t) (payload t) (status t) (retry_count t) (max_retries t)
         (created_at t) (started_at t) (completed_at t) d
         (error_message t).

Definition set_error_message (e : option string) (t : Task) : Task :=
  mkTask (task_type t) (payload t) (status t) (retry_count t) (max_retries t)
         (created_at t) (started_at t) (completed_at t) (next_retry_at t) e.

(** The table: primary key to row. *)
Abbreviation TaskTable := (gmap UUID Task).

End Models.

Import Models.

(** ** kobold/task_queue.py *)

Module TaskQueue.

Definition TASK_MAX_RETRIES : nat := 3.
Definition TASK_STALE_MINUTES : Z := 15.

(** [add_task]: the fresh row gets the primary key [new_id] (a random
    UUID in the source) and [created_at = now] (the column default). *)
Definition add_task (now : datetime) (new_id : UUID)
    (ty : string) (pl : gmap string string) (db : TaskTable)
    : TaskTable * (UUID * Task) :=
  let task := mkTask ty pl PENDING 0 TASK_MAX_RETRIES now None None None None in
  (<[new_id := task]> db, (new_id, task)).

(** The [WHERE] clause of [fetch_next_task]:
    [status == PENDING] and ([next_retry_at IS NULL] or [next_retry_at <= now]). *)
Definition eligible (now : datetime) (t : Task) : bool :=
  bool_decide (status t = PENDING) &&
  match next_retry_at t with
  | None => true
  | Some r => r <=? now
  end.

(** [next_retry_at ASC NULLS LAST]: a three-way comparison. *)
Definition cmp_nulls_last (a b : option datetime) : comparison :=
  match a, b with
  | None, None => Eq
  | None, Some _ => Gt
  | Some _, None => Lt
  | Some x, Some y => x ?= y
  end.

(** [ORDER BY next_retry_at ASC NULLS LAST, created_at ASC]:
    [order_le a b] says that row [a] does not come after row [b]. *)
Definition order_le (a b : Task) : bool :=
  match cmp_nulls_last (next_retry_at a) (next_retry_at b) with
  | Lt => true
  | Gt => false
  | Eq => created_at a <=? created_at b
  end.

(** [LIMIT 1] after the ordering: the first row that no later row
    strictly precedes. *)
Fixpoint first_row (rows : list (UUID * Task)) : option (UUID * Task) :=
  match rows with
  | [] => None
  | r :: rest =>
      match first_row rest with
      | None => Some r
      | Some best => if order_le (snd r) (snd best) then Some r else Some best
      end
  end.

Definition select_next (now : datetime) (db : TaskTable) : option (UUID * Task) :=
  first_row (filter (fun r => eligible now (snd r) = true) (map_to_list db)).

Definition fetch_next_task (now : datetime) (db : TaskTable)
    : TaskTable * option (UUID * Task) :=
  match select_next now db with
  | Some (i, task) =>
      let task := set_status PROCESSING task in
      let task := set_started_at (Some now) task in
      (<[i := task]> db, Some (i, task))
  | None => (db, None)
  end.

(** [complete_task(task_id, *, error=None, status=None)].  An empty
    [error] string is falsy, as in the source. *)
Definition truthy (e : option string) : bool :=
  match e with
  | Some s => negb (bool_decide (s = EmptyString))
  | None => false
  end.

Definition complete_task (now : datetime) (i : UUID)
    (error : option string) (st : option TaskStatus) (db : TaskTable) : TaskTable :=
  match db !! i with
  | None => db
  | Some task =>
      let task :=
        match st with
        | Some s => set_status s task
        | None => if truthy error then set_status FAILED task
                  else set_status COMPLETED task
        end in
      let task := if truthy error then set_error_message error task else task in
      let task := set_completed_at (Some now) task in
      <[i := task]> db
  end.

(** [retry_task(task_id, error, *, delay_seconds=None)]. *)
Definition default_delay_seconds (retry_count_after : nat) : Z :=
  10 * 2 ^ Z.of_nat (retry_count_after - 1).

Definition retry_task (now : datetime) (i : UUID) (error : string)
    (delay_seconds : option Z) (db : TaskTable) : TaskTable :=
  match db !! i with
  | None => db
  | Some task =>
      let task := set_retry_count (retry_count task + 1) task in
      let task := set_error_message (Some error) task in
      let task := set_status PENDING task in
      let delay_seconds :=
        match delay_seconds with
        | None => default_delay_seconds (retry_count task)
        | Some d => d
        end in
      let task := set_next_retry_at (Some (now + timedelta_seconds delay_seconds)) task in
      <[i := task]> db
  end.

(** [recover_stale_tasks]: the [WHERE] clause, the per-row update and
    the returned count. *)
Definition is_stale (cutoff : datetime) (t : Task) : bool :=
  bool_decide (status t = PROCESSING) &&
  match started_at t with
  | None => false
  | Some s => s <? cutoff
  end.

Definition recover_row (t : Task) : Task :=
  let t := set_status PENDING t in
  let t := set_started_at None t in
  let t := set_retry_count (retry_count t + 1) t in
  set_error_message (Some "Task recovered from stale state") t.

Definition recover_stale_tasks (now : datetime) (db : TaskTable) : TaskTable * nat :=
  let cutoff := now - timedelta_minutes TASK_STALE_MINUTES in
  let stale_tasks := filter (fun r => is_stale cutoff (snd r) = true) (map_to_list db) in
  (foldl (fun db r => <[fst r := recover_row (snd r)]> db) db stale_tasks,
   length stale_tasks).

End TaskQueue.

(** ** kobold/worker.py *)

Module Worker.
Import TaskQueue.

(** What [await processor.process(task.payload)] does, as far as the
    worker can see: it returns or raises an exception [e], of which the
    worker reads [type(e).__name__] and [str(e)].  A processor may itself
    use the queue (stages enqueue their successors). *)
Inductive Outcome : Type :=
| Returns
| Raises (kind message : string).

Definition Processor : Type :=
  gmap string string -> TaskTable -> Outcome * TaskTable.

(** [f"{type(e).__name__}: {e}"] *)
Definition format_error (kind message : string) : string :=
  kind +:+ ": " +:+ message.

Definition _handle_task_failure (now : datetime) (task : UUID * Task)
    (error_msg : string) (db : TaskTable) : TaskTable :=
  if (retry_count (snd task) <? max_retries (snd task))%nat
  then retry_task now (fst task) error_msg None db
  else complete_task now (fst task) (Some error_msg) (Some DEAD_LETTER) db.

Definition _process_task (now : datetime) (task : UUID * Task)
    (tasks : gmap string Processor) (db : TaskTable) : TaskTable :=
  let ty := task_type (snd task) in
  match (tasks !! ty : option Processor) with
  | None =>
      let error_msg := "Unknown task type: " +:+ ty in
      complete_task now (fst task) (Some error_msg) (Some FAILED) db
  | Some processor =>
      match processor (payload (snd task)) db with
      | (Returns, db) => complete_task now (fst task) None None db
      | (Raises kind message, db) =>
          _handle_task_failure now task (format_error kind message) db
      end
  end.

End Worker.

(** ** Sequences of queue operations *)

Module QueueRuns.
Import TaskQueue.

Inductive queue_op : Type :=
| OpEnqueue (new_id : UUID) (ty : string) (pl : gmap string string)
| OpClaim
| OpComplete (i : UUID) (error : option string) (st : option TaskStatus)
| OpRetry (i : UUID) (error : string) (delay_seconds : option Z)
| OpRecoverStale.

(** One operation, performed when the clock reads [now]. *)
Definition apply_op (now : datetime) (op : queue_op) (db : TaskTable) : TaskTable :=
  match op with
  | OpEnqueue new_id ty pl => fst (add_task now new_id ty pl db)
  | OpClaim => fst (fetch_next_task now db)
  | OpComplete i error st => complete_task now i error st db
  | OpRetry i error delay_seconds => retry_task now i error delay_seconds db
  | OpRecoverStale => fst (recover_stale_tasks now db)
  end.

Fixpoint run (ops : list (datetime * queue_op)) (db : TaskTable) : TaskTable :=
  match ops with
  | [] => db
  | (now, op) :: rest => run rest (apply_op now op db)
  end.

(** The invariant of the specification, relaxed by a slack [k]. *)
Definition within_budget (k : nat) (db : TaskTable) : Prop :=
  map_Forall (fun _ t => (retry_count t <= max_retries t + k)%nat) db.

(** The worker's guard on [retry]: it retries only a task whose
    [retry_count] is below [max_retries]. *)
Definition retry_guarded (op : queue_op) (db : TaskTable) : bool :=
  match op with
  | OpRetry i _ _ =>
      match db !! i with
      | Some t => (retry_count t <? max_retries t)%nat
      | None => true
      end
  | _ => true
  end.

Fixpoint guarded (ops : list (datetime * queue_op)) (db : TaskTable) : bool :=
  match ops with
  | [] => true
  | (now, op) :: rest => retry_guarded op db && guarded rest (apply_op now op db)
  end.

Definition is_recovery (op : queue_op) : bool :=
  match op with OpRecoverStale => true | _ => false end.

Definition recoveries (ops : list (datetime * queue_op)) : nat :=
  length (filter (fun o => is_recovery (snd o) = true) ops).

(** A task that fails three times and is claimed a fourth time, after
    which the worker dies; the next worker starts 16 minutes later. *)
Definition s (n : Z) : datetime := timedelta_seconds n.

Definition crash_run : list (datetime * queue_op) :=
  [ (s 0, OpEnqueue 1%N "INGEST" ∅);
    (s 0, OpClaim); (s 0, OpRetry 1%N "IOError: disk" None);
    (s 10, OpClaim); (s 10, OpRetry 1%N "IOError: disk" None);
    (s 30, OpClaim); (s 30, OpRetry 1%N "IOError: disk" None);
    (s 70, OpClaim);
    (s 1030, OpRecoverStale) ].

(** The ordering of [claim] in the words of the specification:
    [next_retry_at] ascending with nulls first, then [created_at]. *)
Definition cmp_nulls_first (a b : option datetime) : comparison :=
  match a, b with
  | None, None => Eq
  | None, Some _ => Lt
  | Some _, None => Gt
  | Some x, Some y => x ?= y
  end.

Definition spec_order_le (a b : Task) : bool :=
  match cmp_nulls_first (next_retry_at a) (next_retry_at b) with
  | Lt => true
  | Gt => false
  | Eq => created_at a <=? created_at b
  end.

(** Two pending tasks of equal age: a fresh one and one whose retry is due. *)
Definition fresh_task : Task :=
  mkTask "INGEST" ∅ PENDING 0 3 (s 0) None None None None.
Definition retried_task : Task :=
  mkTask "INGEST" ∅ PENDING 1 3 (s 0) None None (Some (s 10)) (Some "IOError: disk").
Definition two_pending : TaskTable :=
  <[1%N := fresh_task]> (<[2%N := retried_task]> ∅).

(** A processor that always raises [IOError("disk")], registered for
    [INGEST]. *)
Definition always_fails : Worker.Processor :=
  fun _ db => (Worker.Raises "IOError" "disk", db).
Definition failing_registry : gmap string Worker.Processor :=
  {[ "INGEST" := always_fails ]}.

(** A task claimed an hour ago and never finished. *)
Definition stuck_task : Task :=
  mkTask "INGEST" ∅ PROCESSING 0 3 (s 0) (Some (s 0)) None None None.
Definition one_stuck : TaskTable := <[7%N := stuck_task]> ∅.

End QueueRuns.


(** ** Python [str] operations used by the sources *)

Module PyStr.

Definition chars (s : string) : list ascii := list_ascii_of_string s.
Definition text (l : list ascii) : string := string_of_list_ascii l.

(** [len(s)] *)
Definition len (s : string) : nat := length (chars s).

(** [s.lstrip], [s.rstrip] and [s.strip] for a set of characters given
    as a predicate. *)
Fixpoint lstrip_with (p : ascii -> bool) (l : list ascii) : list ascii :=
  match l with
  | [] => []
  | c :: r => if p c then lstrip_with p r else l
  end.

Definition rstrip_with (p : ascii -> bool) (l : list ascii) : list ascii :=
  rev (lstrip_with p (rev l)).

Definition strip_with (p : ascii -> bool) (l : list ascii) : list ascii :=
  rstrip_with p (lstrip_with p l).

(** [s.strip(chars)] *)
Definition in_chars (set : list ascii) (c : ascii) : bool :=
  bool_decide (c ∈ set).

Definition strip_chars (set : list ascii) (l : list ascii) : list ascii :=
  strip_with (in_chars set) l.

(** [s.strip()]: the characters for which [str.isspace] holds, among the
    code points 0..255: 9-13, 28-32, 133 and 160. *)
Definition is_space (c : ascii) : bool :=
  let n := nat_of_ascii c in
  ((9 <=? n) && (n <=? 13) || (28 <=? n) && (n <=? 32) ||
   (n =? 133) || (n =? 160))%nat.

Definition strip (l : list ascii) : list ascii := strip_with is_space l.

(** [s.split(sep)] for a separator of one character. *)
Fixpoint split (sep : ascii) (l : list ascii) : list (list ascii) :=
  match l with
  | [] => [[]]
  | c :: r =>
      if decide (c = sep) then [] :: split sep r
      else match split sep r with
           | seg :: segs => (c :: seg) :: segs
           | [] => [[c]]
           end
  end.

(** [sep.join(segments)] *)
Fixpoint join (sep : list ascii) (segments : list (list ascii)) : list ascii :=
  match segments with
  | [] => []
  | [x] => x
  | x :: rest => x ++ sep ++ join sep rest
  end.

(** [s.startswith(p)] *)
Fixpoint startswith (p l : list ascii) : bool :=
  match p, l with
  | [], _ => true
  | _ :: _, [] => false
  | a :: p', b :: l' => bool_decide (a = b) && startswith p' l'
  end.

(** [s.replace(old, new)]: all occurrences, left to right, not
    overlapping.  The recursion is on a bound for the number of characters
    still to scan. *)
Fixpoint replace_scan (fuel : nat) (old new l : list ascii) : list ascii :=
  match fuel with
  | O => l
  | S fuel =>
      match l with
      | [] => []
      | c :: r =>
          if startswith old l
          then new ++ replace_scan fuel old new (drop (length old) l)
          else c :: replace_scan fuel old new r
      end
  end.

Definition replace (old new l : list ascii) : list ascii :=
  match old with
  | [] => new ++ flat_map (fun c => c :: new) l
  | _ :: _ => replace_scan (length l) old new l
  end.

(** [s.rfind(c)]: the index of the last occurrence of a character. *)
Fixpoint rfind (c : ascii) (l : list ascii) : option nat :=
  match l with
  | [] => None
  | x :: r =>
      match rfind c r with
      | Some i => Some (S i)
      | None => if decide (x = c) then Some O else None
      end
  end.

(** [s[:k]] for an integer [k], which may be negative. *)
Definition slice_to (k : Z) (l : list ascii) : list ascii :=
  if k <? 0 then take (length l - Z.to_nat (- k)) l
  else take (Z.to_nat k) l.

(** [f"{n:02d}"] and [str(n)] for an integer. *)
Definition str_of_int (n : Z) : string := pretty n.

Definition format_02d (n : Z) : string :=
  let digits := str_of_int n in
  if (len digits <? 2)%nat then "0" +:+ digits else digits.

End PyStr.

(** ** [pathlib.PurePosixPath], as far as the sources use it

    A path is its root flag and its components; empty and [.] components
    are dropped when a path is built from a string.  (A root of exactly
    two slashes is read as one.) *)

Module Pathlib.
Import PyStr.

Record Path : Type := mkPath {
  is_absolute : bool;
  parts : list string
}.

#[global] Instance Path_eq_dec : EqDecision Path.
Proof. solve_decision. Defined.

Definition slash : ascii := "/"%char.
Definition dot : ascii := "."%char.

Definition keep_part (seg : list ascii) : bool :=
  negb (bool_decide (seg = [])) && negb (bool_decide (seg = [dot])).

(** [Path(s)] *)
Definition Path_of (s : string) : Path :=
  let l := chars s in
  mkPath (startswith [slash] l)
         (text <$> filter (fun seg => keep_part seg = true) (split slash l)).

(** [str(p)] *)
Definition str (p : Path) : string :=
  let body := text (join [slash] (chars <$> parts p)) in
  if is_absolute p then "/" +:+ body
  else match parts p with
       | [] => "."
       | _ :: _ => body
       end.

(** [p.name] *)
Definition name (p : Path) : string := List.last (parts p) EmptyString.

(** [p.suffix]: [name[i:]] for [i = name.rfind('.')] when
    [0 < i < len(name) - 1], else empty. *)
Definition suffix_index (nm : list ascii) : option nat :=
  match rfind dot nm with
  | Some i => if ((0 <? i) && (i <? length nm - 1))%nat then Some i else None
  | None => None
  end.

Definition suffix (p : Path) : string :=
  let nm := chars (name p) in
  match suffix_index nm with
  | Some i => text (drop i nm)
  | None => EmptyString
  end.

(** [p.stem] *)
Definition stem (p : Path) : string :=
  let nm := chars (name p) in
  match suffix_index nm with
  | Some i => text (take i nm)
  | None => name p
  end.

(** [p.parent] *)
Definition parent (p : Path) : Path :=
  mkPath (is_absolute p) (removelast (parts p)).

(** [p / q] *)
Definition joinpath (p q : Path) : Path :=
  if is_absolute q then q
  else mkPath (is_absolute p) (parts p ++ parts q).

End Pathlib.

(** ** kobold/utils/paths.py *)

Module Paths.
Import PyStr Pathlib.

(** [INVALID_CHARS_PATTERN]: one of the nine characters less-than,
    greater-than, colon, double quote (code 34), slash, backslash, bar,
    question mark, star, or a control character (codes 0 to 31). *)
Definition invalid_punctuation : list ascii :=
  ["<"; ">"; ":"; "034"; "/"; "\"; "|"; "?"; "*"]%char.

Definition is_invalid_char (c : ascii) : bool :=
  in_chars invalid_punctuation c || (nat_of_ascii c <? 32)%nat.

Definition MAX_SEGMENT_LENGTH : nat := 200.

(** [INVALID_CHARS_PATTERN.sub("_", filename)] *)
Definition sub_invalid (l : list ascii) : list ascii :=
  (fun c => if is_invalid_char c then "_"%char else c) <$> l.

(** The argument of [strip] in [sanitize_filename]: dot, space, tab,
    newline, carriage return. *)
Definition dot_and_whitespace : list ascii :=
  ["."; " "; "009"; "010"; "013"]%char.

Definition sanitize_filename (filename : string) : string :=
  let sanitized := sub_invalid (chars filename) in
  let sanitized := strip_chars dot_and_whitespace sanitized in
  if (MAX_SEGMENT_LENGTH <? length sanitized)%nat then
    let path := Path_of (text sanitized) in
    let stem :=
      slice_to (Z.of_nat MAX_SEGMENT_LENGTH - Z.of_nat (len (suffix path)))
               (chars (stem path)) in
    text (stem ++ chars (suffix path))
  else text sanitized.

(** The truncation step of [sanitize_filename] on a name that is a single
    path component: stem and suffix are cut from the name itself. *)
Definition truncate_name (t : list ascii) : list ascii :=
  match suffix_index t with
  | Some i =>
      slice_to (Z.of_nat MAX_SEGMENT_LENGTH - Z.of_nat (length (drop i t))) (take i t)
        ++ drop i t
  | None => slice_to (Z.of_nat MAX_SEGMENT_LENGTH) t
  end.

(** [\w]: a letter, a digit or the underscore; among the code points
    128..255 the letters and digits are 170, 178, 179, 181, 185, 186,
    188-190, 192-214, 216-246 and 248-255. *)
Definition is_word_char (c : ascii) : bool :=
  let n := nat_of_ascii c in
  ((48 <=? n) && (n <=? 57) || (65 <=? n) && (n <=? 90) ||
   (97 <=? n) && (n <=? 122) || (n =? 95) ||
   (n =? 170) || (n =? 178) || (n =? 179) || (n =? 181) ||
   (n =? 185) || (n =? 186) || (188 <=? n) && (n <=? 190) ||
   (192 <=? n) && (n <=? 214) || (216 <=? n) && (n <=? 246) ||
   (248 <=? n) && (n <=? 255))%nat.

(** The longest run of word characters at the head of a string, and the
    rest. *)
Fixpoint span_word (l : list ascii) : list ascii * list ascii :=
  match l with
  | c :: r =>
      if is_word_char c
      then let (w, rest) := span_word r in (c :: w, rest)
      else ([], l)
  | [] => ([], [])
  end.

(** A match of [TEMPLATE_VAR_PATTERN] ([\{(\w+)\}]) at the head of [l]:
    group 1 and what follows the match. *)
Definition match_var (l : list ascii) : option (list ascii * list ascii) :=
  match l with
  | c :: r =>
      if decide (c = "{"%char) then
        match span_word r with
        | ((_ :: _) as w, c' :: rest) =>
            if decide (c' = "}"%char) then Some (w, rest) else None
        | _ => None
        end
      else None
  | [] => None
  end.

(** [TEMPLATE_VAR_PATTERN.finditer(pattern)]: group 1 of the successive
    matches, scanning from the left; after a match the scan resumes behind
    it. *)
Fixpoint finditer_scan (fuel : nat) (l : list ascii) : list (list ascii) :=
  match fuel with
  | O => []
  | S fuel =>
      match l with
      | [] => []
      | _ :: r =>
          match match_var l with
          | Some (w, rest) => w :: finditer_scan fuel rest
          | None => finditer_scan fuel r
          end
      end
  end.

Definition finditer (pattern : list ascii) : list (list ascii) :=
  finditer_scan (length pattern) pattern.

(** [metadata.get(var_name)] on a [dict[str, str | None]] *)
Definition dict_get (metadata : gmap string (option string)) (var_name : string)
    : option string :=
  match metadata !! var_name with
  | Some value => value
  | None => None
  end.

(** [match.group(0)], the text [{var_name}]. *)
Definition placeholder (var_name : list ascii) : list ascii :=
  "{"%char :: var_name ++ ["}"%char].

(** The body of the loop of [render]. *)
Definition substitute_var (metadata : gmap string (option string))
    (result : list ascii) (var_name : list ascii) : list ascii :=
  let value := dict_get metadata (text var_name) in
  let sanitized :=
    match value with
    | Some v => chars (sanitize_filename v)
    | None => []
    end in
  replace (placeholder var_name) sanitized result.

Definition substitute (pattern : string) (metadata : gmap string (option string))
    : list ascii :=
  foldl (substitute_var metadata) (chars pattern) (finditer (chars pattern)).

(** [PathTemplate(pattern).render(metadata)] *)
Definition render (pattern : string) (metadata : gmap string (option string)) : Path :=
  let result := substitute pattern metadata in
  let segments :=
    strip <$> filter (fun seg => strip seg <> []) (split slash result) in
  match segments with
  | [] => Path_of EmptyString
  | _ :: _ => Path_of (text (join [slash] segments))
  end.

(** The last step of [render] in the words of the specification: split on
    the slash, strip each segment, drop the empty segments, rejoin; when no
    segment is left, the path [.]. *)
Definition rejoin_segments (result : list ascii) : Path :=
  let segments := filter (fun seg => seg <> []) (strip <$> split slash result) in
  if bool_decide (segments = []) then Path_of "."
  else Path_of (text (join [slash] segments)).

(** The metadata of the two rendering examples of the specification. *)
Definition meta_A_T : gmap string (option string) :=
  <["author" := Some "A"]> (<["series" := None]> (<["title" := Some "T"]> ∅)).
Definition meta_all_null : gmap string (option string) :=
  <["author" := None]> (<["series" := None]> (<["title" := None]> ∅)).

(** The first rendering example with white space around every segment: a
    tab in front, a newline at the end, spaces around the slashes. *)
Definition spaced_template : string :=
  text ("009"%char :: chars " {author} / {series} / {title} " ++ ["010"%char]).

(** Strings without a character of [INVALID_CHARS_PATTERN]. *)
Definition valid_chars (l : list ascii) : Prop :=
  Forall (fun c => is_invalid_char c = false) l.

(** A name of 210 characters without a dot: 199 times [a], a space, ten
    times [b]. *)
Definition long_name : string :=
  text (repeat "a"%char 199 ++ [" "%char] ++ repeat "b"%char 10).

(** A name whose extension has more than 200 characters: [a.] followed
    by 300 times [b]. *)
Definition long_extension_name : string :=
  text (chars "a." ++ repeat "b"%char 300).

End Paths.

(** ** The file system and exceptions, as the organizer sees them *)

Module Sys.
Import Pathlib.

(** Exceptions by class.  [FileNotFoundError] is a subclass of [OSError]. *)
Inductive exn : Type :=
| OSError (msg : string)
| FileNotFoundError (msg : string)
| ValueError (msg : string)
| OtherException (msg : string).

Definition is_OSError (e : exn) : bool :=
  match e with
  | OSError _ | FileNotFoundError _ => true
  | ValueError _ | OtherException _ => false
  end.

Inductive result (A : Type) : Type :=
| Ok (a : A)
| Raise (e : exn).
Arguments Ok {A} a.
Arguments Raise {A} e.

(** The operations the sources perform on the file system.  Each reads
    or changes a world [W]; a changing operation yields the new world and
    the exception it raised, if any.
      - [path_exists]: [Path.exists()];
      - [get_file_hash]: [kobold.utils.hashing.get_file_hash];
      - [unlink]: [Path.unlink()];
      - [mkdir]: [Path.mkdir(parents=True, exist_ok=True)];
      - [shutil_move]: [shutil.move(src, dst)] on two strings. *)
Class FileSystem (W : Type) : Type := {
  path_exists : W -> Path -> bool;
  get_file_hash : W -> Path -> result string;
  unlink : W -> Path -> W * option exn;
  mkdir : W -> Path -> W * option exn;
  shutil_move : W -> string -> string -> W * option exn
}.

(** The calls that change the file system, in the order they are made. *)
Inductive fs_call : Type :=
| Unlink (p : Path)
| Mkdir (p : Path)
| Move (src dst : string).

Record fs_state (W : Type) : Type := mkState {
  world : W;
  calls : list fs_call
}.
Arguments mkState {W} world calls.
Arguments world {W} f.
Arguments calls {W} f.

(** Computations that use the file system and may raise. *)
Definition M (W A : Type) : Type := fs_state W -> fs_state W * result A.

Definition ret {W A} (a : A) : M W A := fun st => (st, Ok a).
Definition raise {W A} (e : exn) : M W A := fun st => (st, Raise e).
Definition bind {W A B} (m : M W A) (k : A -> M W B) : M W B :=
  fun st =>
    match m st with
    | (st, Ok a) => k a st
    | (st, Raise e) => (st, Raise e)
    end.

(** [try: m except <classes>: handler], for the classes selected by [catches]. *)
Definition try_except {W A} (m : M W A) (catches : exn -> bool) (handler : exn -> M W A)
    : M W A :=
  fun st =>
    match m st with
    | (st, Ok a) => (st, Ok a)
    | (st, Raise e) => if catches e then handler e st else (st, Raise e)
    end.

Definition lift_change {W} (call : fs_call) (op : W -> W * option exn) : M W unit :=
  fun st =>
    let (w, r) := op (world st) in
    let st := mkState w (calls st ++ [call]) in
    match r with
    | None => (st, Ok tt)
    | Some e => (st, Raise e)
    end.

Section Ops.
Context {W : Type} `{FileSystem W}.

Definition do_exists (p : Path) : M W bool :=
  fun st => (st, Ok (path_exists (world st) p)).
Definition do_hash (p : Path) : M W string :=
  fun st => (st, get_file_hash (world st) p).
Definition do_unlink (p : Path) : M W unit :=
  lift_change (Unlink p) (fun w => unlink w p).
Definition do_mkdir (p : Path) : M W unit :=
  lift_change (Mkdir p) (fun w => mkdir w p).
Definition do_move (src dst : string) : M W unit :=
  lift_change (Move src dst) (fun w => shutil_move w src dst).

End Ops.

End Sys.

Notation "'let*' x ':=' m 'in' k" := (Sys.bind m (fun x => k))
  (at level 10, x name, m at level 100, k at level 200).
Notation "'run*' m 'in' k" := (Sys.bind m (fun _ => k))
  (at level 10, m at level 100, k at level 200).

(** ** kobold/organizer.py *)

Module Organizer.
Import PyStr Pathlib Paths Sys.

Record date : Type := mkDate { year : Z; month : Z; day : Z }.

(** Modelled from the spec: the table class [Book] of kobold/models.py
    (section 3 of the specification), restricted to the columns that the
    organizer and the organization service read or write; [series_index] is
    an integer, as the data model has it. *)
Record Book : Type := mkBook {
  title : string;
  author : option string;
  series : option string;
  series_index : option Z;
  language : option string;
  genre : option string;
  publication_date : option date;
  file_path : string;
  file_hash : string;
  kepub_path : option string;
  updated_at : datetime
}.

Definition set_file_path (p : string) (b : Book) : Book :=
  mkBook (title b) (author b) (series b) (series_index b) (language b) (genre b)
         (publication_date b) p (file_hash b) (kepub_path b) (updated_at b).

Definition set_kepub_path (p : option string) (b : Book) : Book :=
  mkBook (title b) (author b) (series b) (series_index b) (language b) (genre b)
         (publication_date b) (file_path b) (file_hash b) p (updated_at b).

Definition set_series_index (n : option Z) (b : Book) : Book :=
  mkBook (title b) (author b) (series b) n (language b) (genre b)
         (publication_date b) (file_path b) (file_hash b) (kepub_path b) (updated_at b).

(** Modelled from the spec: the settings object of kobold/config.py, which
    is not among the sources, with the three options the organizer reads. *)
Record Settings : Type := mkSettings {
  ORGANIZE_LIBRARY : bool;
  ORGANIZE_TEMPLATE : string;
  watch_dirs_list : list Path
}.

(** An optional string under a truth test: [None] and the empty string
    are false, any other string is true and is kept. *)
Definition nonempty (o : option string) : option string :=
  match o with
  | Some v => if bool_decide (v = EmptyString) then None else Some v
  | None => None
  end.

(** The dictionary built by [get_organize_path]. *)
Definition organize_metadata (book : Book) : gmap string (option string) :=
  list_to_map
    [ ("author", Some (match nonempty (author book) with
                       | Some a => a
                       | None => "Unknown Author"
                       end));
      ("title", Some (title book));
      ("series", series book);
      ("series_index",
        match series_index book with
        | Some n => if bool_decide (n = 0) then None else Some (format_02d n)
        | None => None
        end);
      ("language", language book);
      ("genre", genre book);
      ("year",
        match publication_date book with
        | Some d => Some (str_of_int (year d))
        | None => None
        end) ].

Definition get_organize_path (settings : Settings) (book : Book) : Path * Path :=
  let metadata := organize_metadata book in
  let new_dir := render (ORGANIZE_TEMPLATE settings) metadata in
  let original_path := Path_of (file_path book) in
  let filename := sanitize_filename (name original_path) in
  let base_dir :=
    match watch_dirs_list settings with
    | d :: _ => d
    | [] => Path_of "/books"
    end in
  let new_path := joinpath (joinpath base_dir new_dir) (Path_of filename) in
  (original_path, new_path).

Section WithFileSystem.
Context {W : Type} `{FileSystem W}.

(** [parent / f"{stem}_{counter}{suffix}"] *)
Definition sibling (path : Path) (counter : nat) : Path :=
  joinpath (parent path)
           (Path_of (stem path +:+ "_" +:+ pretty counter +:+ suffix path)).

Definition exhausted (path : Path) : exn :=
  OSError ("Could not generate unique path for " +:+ str path).

(** The loop of [_generate_unique_path], entered with [counter]; [fuel]
    bounds the number of iterations. *)
Fixpoint unique_loop (fuel : nat) (counter : nat) (path : Path) : M W Path :=
  match fuel with
  | O => raise (exhausted path)
  | S fuel =>
      let new_path := sibling path counter in
      let* found := do_exists new_path in
      if negb found then ret new_path
      else
        let counter := (counter + 1)%nat in
        if (1000 <? counter)%nat then raise (exhausted path)
        else unique_loop fuel counter path
  end.

Definition _generate_unique_path (path : Path) : M W Path :=
  unique_loop 1000 1 path.

(** The [kepub] block at the end of [organize_book]. *)
Definition move_kepub (book : Book) (new_path : Path) : M W Book :=
  match nonempty (kepub_path book) with
  | Some kepub_path =>
    let kepub_original := Path_of kepub_path in
    let* found := do_exists kepub_original in
    if found then
      let kepub_filename := sanitize_filename (name kepub_original) in
      let kepub_new_path := joinpath (parent new_path) (Path_of kepub_filename) in
      let* taken := do_exists kepub_new_path in
      let* kepub_new_path :=
        (if taken then _generate_unique_path kepub_new_path
         else ret kepub_new_path) in
      try_except
        (run* do_move (str kepub_original) (str kepub_new_path) in
         ret (set_kepub_path (Some (str kepub_new_path)) book))
        is_OSError
        (fun _ => ret book)
    else ret book
  | None => ret book
  end.

(** The block [if new_path.exists(): ...] of [organize_book]: [inl p]
    stands for [return p] from inside the block, [inr p] for leaving the
    block with [new_path = p]. *)
Definition resolve_existing (book : Book) (original_path new_path : Path)
    : M W (string + Path) :=
  let* deduplicated :=
    try_except
      (let* target_hash := do_hash new_path in
       if bool_decide (target_hash = file_hash book) then
         try_except (run* do_unlink original_path in ret (Some (str new_path)))
                    is_OSError (fun e => raise e)
       else ret None)
      (fun _ => true)
      (fun _ => ret None) in
  match deduplicated with
  | Some p => ret (inl p)
  | None =>
      let* new_path := _generate_unique_path new_path in
      ret (inr new_path)
  end.

(** The tail of [organize_book], from [new_path.parent.mkdir] on: create
    the parent directories, move the file, move the kepub, return the new
    path. *)
Definition relocate (book : Book) (original_path new_path : Path)
    : M W (Book * option string) :=
  run* try_except (do_mkdir (parent new_path)) is_OSError (fun e => raise e) in
  run* try_except (do_move (str original_path) (str new_path))
                  is_OSError (fun e => raise e) in
  let* book := move_kepub book new_path in
  ret (book, Some (str new_path)).

(** [organize_book]: the book as the call leaves it, and the returned
    value. *)
Definition organize_book (settings : Settings) (book : Book) : M W (Book * option string) :=
  if negb (ORGANIZE_LIBRARY settings) then ret (book, None)
  else
    let (original_path, new_path) := get_organize_path settings book in
    if bool_decide (new_path = original_path) then ret (book, None)
    else
      let* found := do_exists new_path in
      let* target :=
        (if found then resolve_existing book original_path new_path
         else ret (inr new_path)) in
      match target with
      | inl p => ret (book, Some p)
      | inr new_path => relocate book original_path new_path
      end.

(** The sibling names that [_generate_unique_path] tries, in the words of
    the specification: [_N] appended to the stem for ascending [N] in
    [1, 1000], the first that does not exist. *)
Definition first_free_sibling (w : W) (path : Path) : option Path :=
  snd <$> list_find (fun p => path_exists w p = false)
                    (sibling path <$> seq 1 1000).

(** Renaming in the words of the specification: move the file to the
    first free sibling, or fail when the 1000 names are taken. *)
Definition rename_away (book : Book) (original_path target : Path)
    : M W (Book * option string) :=
  fun st =>
    match first_free_sibling (world st) target with
    | Some unique => relocate book original_path unique st
    | None => (st, Raise (exhausted target))
    end.

End WithFileSystem.

End Organizer.

(** ** kobold/services/organization_service.py *)

Module OrganizationService.
Import PyStr Pathlib Paths Sys Organizer.

(** Modelled from the spec: [Book.mark_updated] of kobold/models.py, which
    is not among the sources; the data model lists [updated_at], which it
    sets to the current time. *)
Definition mark_updated (now : datetime) (b : Book) : Book :=
  mkBook (title b) (author b) (series b) (series_index b) (language b) (genre b)
         (publication_date b) (file_path b) (file_hash b) (kepub_path b) now.

Abbreviation BookTable := (gmap UUID Book).

Section WithFileSystem.
Context {W : Type} `{FileSystem W}.

(** [uuid_of] stands for the constructor [UUID(book_id_str)], which raises
    [ValueError] on a malformed string. *)
Variable uuid_of : string -> option UUID.

(** The recovery test made when the source file is missing: the expected
    path exists and hashes, without error, to [book.file_hash]. *)
Definition found_at_target (w : W) (book : Book) (expected_path : Path) : bool :=
  if path_exists w expected_path then
    match get_file_hash w expected_path with
    | Ok target_hash => bool_decide (target_hash = file_hash book)
    | Raise _ => false
    end
  else false.

Definition process_job (settings : Settings) (now : datetime)
    (payload : gmap string string) (st : fs_state W) (books : BookTable)
    : fs_state W * BookTable * result unit :=
  if negb (ORGANIZE_LIBRARY settings) then (st, books, Ok tt)
  else
    match nonempty (payload !! "book_id") with
    | None => (st, books, Ok tt)
    | Some book_id_str =>
      match uuid_of book_id_str with
      | None => (st, books, Raise (ValueError "badly formed hexadecimal UUID string"))
      | Some book_id =>
          match books !! book_id with
          | None => (st, books, Ok tt)
          | Some book =>
              let (current_path, expected_path) := get_organize_path settings book in
              if negb (path_exists (world st) current_path) then
                if found_at_target (world st) book expected_path then
                  let book := set_file_path (str expected_path) book in
                  let book := mark_updated now book in
                  (st, <[book_id := book]> books, Ok tt)
                else
                  (st, books,
                   Raise (FileNotFoundError
                            ("Source file " +:+ str current_path +:+ " not found")))
              else
                match organize_book settings book st with
                | (st, Ok (book, new_path)) =>
                    match nonempty new_path with
                    | Some new_path =>
                        let book := set_file_path new_path book in
                        let book := mark_updated now book in
                        (st, <[book_id := book]> books, Ok tt)
                    | None => (st, books, Ok tt)
                    end
                | (st, Raise e) => (st, books, Raise e)
                end
          end
      end
    end.

End WithFileSystem.

End OrganizationService.

(** ** A small file system for examples: regular files by path, each with
    the hash of its content; directories are implicit. *)

Module SimpleFS.
Import Pathlib Sys.

Abbreviation files := (gmap string string).

#[global] Instance simple_fs : FileSystem files := {|
  path_exists w p := bool_decide (is_Some (w !! str p));
  get_file_hash w p :=
    match w !! str p with
    | Some h => Ok h
    | None => Raise (FileNotFoundError (str p))
    end;
  unlink w p :=
    match w !! str p with
    | Some _ => (delete (str p) w, None)
    | None => (w, Some (FileNotFoundError (str p)))
    end;
  mkdir w p := (w, None);
  shutil_move w src dst :=
    match w !! src with
    | Some h => (<[dst := h]> (delete src w), None)
    | None => (w, Some (FileNotFoundError src))
    end
|}.

End SimpleFS.

(** ** The same files behind a file system on which [unlink] is refused
    with [OSError("Permission denied")]. *)

Module LockedFS.
Import Pathlib Sys.

Record locked : Type := Locked { contents : gmap string string }.

#[global] Instance locked_fs : FileSystem locked := {|
  path_exists w p := path_exists (contents w) p;
  get_file_hash w p := get_file_hash (contents w) p;
  unlink w p := (w, Some (OSError "Permission denied"));
  mkdir w p := (w, None);
  shutil_move w src dst :=
    let (c, r) := shutil_move (contents w) src dst in (Locked c, r)
|}.

End LockedFS.

(** ** The scenarios of the specification: a book at [/in/a.epub] with
    hash [H], to be placed at [/out/Author/Title/a.epub]. *)

Module Scenarios.
Import Pathlib Sys Organizer SimpleFS.

Definition library : Settings :=
  mkSettings true "{author}/{title}" [Path_of "/out"].

Definition book_a : Book :=
  mkBook "Title" (Some "Author") None None None None None
         "/in/a.epub" "H" None 0.

Definition source_a : Path := Path_of "/in/a.epub".
Definition target_a : Path := Path_of "/out/Author/Title/a.epub".

(** The target holds the same content. *)
Definition fs_same_content : files :=
  <["/in/a.epub" := "H"]> (<["/out/Author/Title/a.epub" := "H"]> ∅).

(** The target holds other content. *)
Definition fs_other_content : files :=
  <["/in/a.epub" := "H"]> (<["/out/Author/Title/a.epub" := "G"]> ∅).

(** The file was moved already, the book record was not updated. *)
Definition fs_moved : files := <["/out/Author/Title/a.epub" := "H"]> ∅.

Definition uuid_of_example (s : string) : option UUID :=
  if bool_decide (s = "00000000-0000-0000-0000-000000000005") then Some 5%N else None.

Definition job_a : gmap string string :=
  <["book_id" := "00000000-0000-0000-0000-000000000005"]> ∅.

Definition books_a : gmap UUID Book := <[5%N := book_a]> ∅.

End Scenarios.

(** ** kobold/task_queue.py, [get_queue_stats] *)

Module QueueStats.
Import TaskQueue.





End QueueStats.

(** ** kobold/worker.py, the loop of [worker] as far as the task table is
    concerned.  The wake-up event, the sleeps and cancellation are not
    part of the table and are left out. *)

Module WorkerLoop.
Import TaskQueue Worker.







End WorkerLoop.

(** * Properties of the task queue *)

Section QueueFacts.
Import TaskQueue QueueRuns.

Lemma order_le_total a b : order_le a b = false -> order_le b a = true.
Proof.
  unfold order_le, cmp_nulls_last.
  destruct (next_retry_at a) as [x|], (next_retry_at b) as [y|]; try done.
  - rewrite (Z.compare_antisym x y).
    destruct (x ?= y) eqn:E; simpl; try done. intros H. lia.
  - intros H. lia.
Qed.

Lemma order_le_trans a b c :
  order_le a b = true -> order_le b c = true -> order_le a c = true.
Proof.
  unfold order_le, cmp_nulls_last.
  destruct (next_retry_at a) as [x|], (next_retry_at b) as [y|],
           (next_retry_at c) as [z|]; try done.
  - destruct (x ?= y) eqn:E1, (y ?= z) eqn:E2; try done;
      rewrite ?Z.compare_eq_iff, ?Z.compare_lt_iff in *; intros H1 H2.
    + subst. rewrite Z.compare_refl. lia.
    + subst. by rewrite (proj2 (Z.compare_lt_iff _ _) E2).
    + subst. by rewrite (proj2 (Z.compare_lt_iff _ _) E1).
    + assert (x < z) as Hlt by lia.
      by rewrite (proj2 (Z.compare_lt_iff _ _) Hlt).
  - intros H1 H2. lia.
Qed.

Lemma first_row_None rows : first_row rows = None <-> rows = [].
Proof.
  destruct rows as [|r rest]; simpl; [done|].
  split; [|done].
  destruct (first_row rest); [destruct (order_le _ _)|]; done.
Qed.

Lemma order_le_refl a : order_le a a = true.
Proof.
  destruct (order_le a a) eqn:E; [done|].
  apply order_le_total in E as E'. by rewrite E' in E.
Qed.

Lemma first_row_spec rows b :
  first_row rows = Some b ->
  b ∈ rows /\ forall r, r ∈ rows -> order_le (snd b) (snd r) = true.
Proof.
  revert b. induction rows as [|r rest IH]; intros b; simpl; [done|].
  destruct (first_row rest) as [best|] eqn:E.
  - destruct (IH best eq_refl) as [Hin Hmin].
    destruct (order_le (snd r) (snd best)) eqn:Hle; intros [= <-].
    + split; [left|]. intros r' [Heq|Hr']%elem_of_cons.
      * subst r'. apply order_le_refl.
      * eapply order_le_trans; eauto.
    + split; [by right|]. intros r' [Heq|Hr']%elem_of_cons; [|by auto].
      subst r'. by apply order_le_total.
  - apply first_row_None in E as ->. intros [= <-].
    split; [left|]. intros r' [Heq|Hr']%elem_of_cons; [|by inversion Hr'].
    subst r'. apply order_le_refl.
Qed.

(** The order of the query, spelled out: a row with a retry time comes
    before every row without one; two retry times are compared, and
    [created_at] decides between equal ones and between two rows without. *)
Lemma order_le_spec a b :
  order_le a b = true <->
  match next_retry_at a, next_retry_at b with
  | Some x, Some y => x < y \/ (x = y /\ created_at a <= created_at b)
  | Some _, None => True
  | None, Some _ => False
  | None, None => created_at a <= created_at b
  end.
Proof.
  unfold order_le, cmp_nulls_last.
  destruct (next_retry_at a) as [x|], (next_retry_at b) as [y|].
  - destruct (x ?= y) eqn:E.
    + apply Z.compare_eq_iff in E. rewrite Z.leb_le. lia.
    + apply Z.compare_lt_iff in E. split; [by left|done].
    + apply Z.compare_gt_iff in E. split; [done|lia].
  - done.
  - split; [done|tauto].
  - apply Z.leb_le.
Qed.

Lemma eligible_spec now t :
  eligible now t = true <->
  status t = PENDING /\
  (next_retry_at t = None \/ exists r, next_retry_at t = Some r /\ r <= now).
Proof.
  unfold eligible. rewrite andb_true_iff, bool_decide_eq_true.
  destruct (next_retry_at t) as [r|].
  - rewrite Z.leb_le. split.
    + intros [? ?]. split; [done|]. right. by exists r.
    + intros [? [?|(r' & [= <-] & ?)]]; done.
  - split.
    + intros [? _]. split; [done|]. by left.
    + intros [? _]. done.
Qed.

(** C1 (as amended).  [fetch_next_task] returns a task only if it is
    [PENDING] and its [next_retry_at] is null or not after [now]; among all
    such rows it returns one that is first in the order "[next_retry_at]
    ascending with nulls LAST, then [created_at] ascending"; the returned
    row is stored and returned as [PROCESSING] with [started_at = now].  It
    returns nothing exactly when no row is eligible. *)
Theorem fetch_next_task_claims_first_eligible (now : datetime) (db : TaskTable) :
  match fetch_next_task now db with
  | (db', Some (i, t')) =>
      exists t,
        db !! i = Some t /\
        status t = PENDING /\
        (next_retry_at t = None \/
         exists r, next_retry_at t = Some r /\ r <= now) /\
        (forall j u, db !! j = Some u -> eligible now u = true ->
                     order_le t u = true) /\
        t' = set_started_at (Some now) (set_status PROCESSING t) /\
        status t' = PROCESSING /\ started_at t' = Some now /\
        db' = <[i := t']> db
  | (db', None) =>
      db' = db /\ forall j u, db !! j = Some u -> eligible now u = false
  end.
Proof.
  unfold fetch_next_task, select_next.
  destruct (first_row _) as [[i t]|] eqn:E.
  - apply first_row_spec in E as [Hin Hmin].
    apply list_elem_of_filter in Hin as [Hel Hin]. simpl in Hel.
    apply elem_of_map_to_list in Hin.
    exists t. split; [done|].
    unfold eligible in Hel. apply andb_true_iff in Hel as [Hst Hnr].
    apply bool_decide_eq_true in Hst.
    split; [done|]. split.
    { destruct (next_retry_at t) as [r|]; [right|by left].
      exists r. split; [done|]. lia. }
    split.
    { intros j u Hj Hu. apply (Hmin (j, u)).
      apply list_elem_of_filter. split; [done|].
      by apply elem_of_map_to_list. }
    done.
  - split; [done|]. intros j u Hj.
    apply first_row_None in E.
    destruct (eligible now u) eqn:Hu; [|done].
    assert ((j, u) ∈ filter (fun r => eligible now (snd r) = true) (map_to_list db)) as Hin.
    { apply list_elem_of_filter. split; [done|]. by apply elem_of_map_to_list. }
    rewrite E in Hin. by inversion Hin.
Qed.

(** C1 (as stated) fails: with a fresh task and a due retried task of
    equal age, both eligible, [fetch_next_task] returns the retried one,
    which the order "nulls first" puts strictly after the fresh one. *)
Lemma fetch_next_task_not_nulls_first :
  snd (fetch_next_task (s 20) two_pending)
    = Some (2%N, set_started_at (Some (s 20)) (set_status PROCESSING retried_task)) /\
  two_pending !! 1%N = Some fresh_task /\
  eligible (s 20) fresh_task = true /\
  eligible (s 20) retried_task = true /\
  spec_order_le fresh_task retried_task = true /\
  spec_order_le retried_task fresh_task = false /\
  ~ (forall j u, two_pending !! j = Some u -> eligible (s 20) u = true ->
                 spec_order_le retried_task u = true).
Proof.
  assert (two_pending !! 1%N = Some fresh_task) as Hfresh by (by vm_compute).
  split; [by vm_compute|]. split; [done|].
  split; [by vm_compute|]. split; [by vm_compute|].
  split; [by vm_compute|]. split; [by vm_compute|].
  intros Hmin. specialize (Hmin 1%N fresh_task Hfresh eq_refl).
  by vm_compute in Hmin.
Qed.

(** C4.  [retry_task] on a stored task increments [retry_count], sets
    [status = PENDING] and [error_message = error], and without an explicit
    delay schedules [next_retry_at = now + 10 * 2^(retry_count - 1)] seconds
    with the incremented count (with an explicit delay, [now + delay]); all
    other columns and all other rows stay as they are.  The default delays
    of the first three retries are 10, 20 and 40 seconds.  On an unknown
    id the table is unchanged. *)
Theorem retry_task_backoff (now : datetime) (i : UUID) (error : string)
    (delay_seconds : option Z) (db : TaskTable) :
  match db !! i with
  | Some t =>
      exists t',
        retry_task now i error delay_seconds db = <[i := t']> db /\
        retry_count t' = (retry_count t + 1)%nat /\
        status t' = PENDING /\
        error_message t' = Some error /\
        next_retry_at t' =
          Some (now + timedelta_seconds
                        (match delay_seconds with
                         | None => 10 * 2 ^ (Z.of_nat (retry_count t') - 1)
                         | Some d => d
                         end)) /\
        task_type t' = task_type t /\ payload t' = payload t /\
        max_retries t' = max_retries t /\ created_at t' = created_at t /\
        started_at t' = started_at t /\ completed_at t' = completed_at t
  | None => retry_task now i error delay_seconds db = db
  end /\
  default_delay_seconds <$> [1; 2; 3]%nat = [10; 20; 40].
Proof.
  split; [|done]. unfold retry_task.
  destruct (db !! i) as [t|]; [|done].
  eexists. split; [reflexivity|]. simpl. repeat split; try done.
  destruct delay_seconds; [done|]. unfold default_delay_seconds.
  replace (Z.of_nat (retry_count t + 1) - 1) with (Z.of_nat (retry_count t + 1 - 1)) by lia.
  done.
Qed.

(** Rows written by a loop of inserts over a list with distinct keys. *)
Lemma foldl_insert_lookup (f : Task -> Task) (l : list (UUID * Task))
    (db : TaskTable) (i : UUID) :
  NoDup l.*1 ->
  foldl (fun db r => <[fst r := f (snd r)]> db) db l !! i =
    match list_find (fun r => fst r = i) l with
    | Some (_, r) => Some (f (snd r))
    | None => db !! i
    end.
Proof.
  revert db. induction l as [|[j u] l IH]; intros db Hnd; simpl; [done|].
  apply NoDup_cons in Hnd as [Hj Hnd]. rewrite IH by done.
  case_decide as Hji; simpl in *.
  - subst j. destruct (list_find _ l) as [[k [j' u']]|] eqn:E; simpl.
    + apply list_find_Some in E as (Hk & Hj' & _). simpl in Hj'. subst j'.
      exfalso. apply Hj. apply list_elem_of_fmap. exists (i, u').
      split; [done|]. by eapply list_elem_of_lookup_2.
    + by rewrite lookup_insert_eq.
  - destruct (list_find _ l) as [[k [j' u']]|] eqn:E; simpl; [done|].
    by rewrite lookup_insert_ne.
Qed.

Lemma list_find_filter_map_to_list (P : Task -> bool) (db : TaskTable) (i : UUID) :
  snd <$> list_find (fun r => fst r = i)
            (filter (fun r => P (snd r) = true) (map_to_list db)) =
  match db !! i with
  | Some t => if P t then Some (i, t) else None
  | None => None
  end.
Proof.
  destruct (list_find _ _) as [[k [j u]]|] eqn:E; simpl.
  - apply list_find_Some in E as (Hk & Hj & _). simpl in Hj. subst j.
    apply list_elem_of_lookup_2 in Hk.
    apply list_elem_of_filter in Hk as [HP Hin]. simpl in HP.
    apply elem_of_map_to_list in Hin. by rewrite Hin, HP.
  - destruct (db !! i) as [t|] eqn:Hi; [|done].
    destruct (P t) eqn:HP; [|done].
    apply list_find_None in E. rewrite Forall_forall in E.
    exfalso. apply (E (i, t)); [|done].
    apply list_elem_of_filter. split; [done|]. by apply elem_of_map_to_list.
Qed.

Lemma recover_stale_tasks_lookup (now : datetime) (db : TaskTable) (i : UUID) :
  fst (recover_stale_tasks now db) !! i =
    (fun t => if is_stale (now - timedelta_minutes TASK_STALE_MINUTES) t
              then recover_row t else t) <$> db !! i.
Proof.
  unfold recover_stale_tasks. simpl.
  rewrite foldl_insert_lookup.
  2:{ eapply sublist_NoDup; [apply (NoDup_fst_map_to_list db)|].
      apply fmap_sublist. apply sublist_filter. }
  pose proof (list_find_filter_map_to_list
                (is_stale (now - timedelta_minutes TASK_STALE_MINUTES)) db i) as H.
  destruct (list_find _ _) as [[k [j u]]|]; simpl in *.
  - destruct (db !! i) as [t|]; [|done].
    destruct (is_stale _ t) eqn:Hst; simplify_eq/=. by rewrite Hst.
  - destruct (db !! i) as [t|]; [|done]. simpl.
    by destruct (is_stale _ t).
Qed.

Lemma recover_stale_tasks_count (now : datetime) (db : TaskTable) :
  snd (recover_stale_tasks now db) =
    size (filter (fun r : UUID * Task =>
                    is_stale (now - timedelta_minutes TASK_STALE_MINUTES) (snd r) = true) db).
Proof.
  unfold recover_stale_tasks. simpl.
  rewrite map_filter_alt, <- length_map_to_list.
  symmetry. apply Permutation_length, map_to_list_to_map.
  eapply sublist_NoDup; [apply (NoDup_fst_map_to_list db)|].
  apply fmap_sublist. apply sublist_filter.
Qed.

(** C7 (as amended).  [recover_stale_tasks] resets exactly the rows that
    are [PROCESSING] with [started_at] before [now - 15 minutes]: such a
    row becomes [PENDING], loses [started_at], has [retry_count]
    incremented by one and gets
    [error_message = "Task recovered from stale state"], its other columns
    unchanged; every other row is unchanged; the result is the number of
    rows reset. *)
Theorem recover_stale_tasks_resets_stale (now : datetime) (db : TaskTable) :
  let cutoff := now - timedelta_minutes 15 in
  (forall t, is_stale cutoff t = true <->
             status t = PROCESSING /\
             exists st, started_at t = Some st /\ st < now - 15 * 60 * 1000000) /\
  (forall i, fst (recover_stale_tasks now db) !! i =
             (fun t => if is_stale cutoff t then recover_row t else t) <$> db !! i) /\
  (forall t, status (recover_row t) = PENDING /\
             started_at (recover_row t) = None /\
             retry_count (recover_row t) = (retry_count t + 1)%nat /\
             error_message (recover_row t) = Some "Task recovered from stale state" /\
             task_type (recover_row t) = task_type t /\
             payload (recover_row t) = payload t /\
             max_retries (recover_row t) = max_retries t /\
             created_at (recover_row t) = created_at t /\
             completed_at (recover_row t) = completed_at t /\
             next_retry_at (recover_row t) = next_retry_at t) /\
  snd (recover_stale_tasks now db) =
    size (filter (fun r : UUID * Task => is_stale cutoff (snd r) = true) db).
Proof.
  intros cutoff. split; [|split; [|split]].
  - intros t. unfold is_stale. rewrite andb_true_iff, bool_decide_eq_true.
    subst cutoff. unfold timedelta_minutes, timedelta_seconds.
    destruct (started_at t) as [st|].
    + rewrite Z.ltb_lt. split.
      * intros [? ?]. split; [done|]. exists st. split; [done|]. lia.
      * intros [? (st' & [= <-] & ?)]. split; [done|]. lia.
    + split; [by intros [_ ?]|]. by intros [_ (st' & ? & _)].
  - intros i. apply recover_stale_tasks_lookup.
  - done.
  - apply recover_stale_tasks_count.
Qed.

(** C7 (as stated) fails on the text of the message: a stuck task is
    reset, but its [error_message] is not "recovered from stale state". *)
Lemma recover_stale_tasks_message_differs :
  is_stale (s 3600 - timedelta_minutes 15) stuck_task = true /\
  snd (recover_stale_tasks (s 3600) one_stuck) = 1%nat /\
  (error_message <$> fst (recover_stale_tasks (s 3600) one_stuck) !! 7%N)
    = Some (Some "Task recovered from stale state") /\
  (error_message <$> fst (recover_stale_tasks (s 3600) one_stuck) !! 7%N)
    <> Some (Some "recovered from stale state").
Proof. by vm_compute. Qed.

(** *** The retry budget *)

Lemma within_budget_insert k db i t :
  within_budget k db ->
  (retry_count t <= max_retries t + k)%nat ->
  within_budget k (<[i := t]> db).
Proof. intros Hdb Ht. by apply map_Forall_insert_2. Qed.

Lemma within_budget_mono k k' db :
  (k <= k')%nat -> within_budget k db -> within_budget k' db.
Proof.
  intros Hk Hdb i t Hi. specialize (Hdb i t Hi). simpl in *. lia.
Qed.

Lemma apply_op_within_budget now op k db :
  within_budget k db ->
  retry_guarded op db = true ->
  within_budget (k + (if is_recovery op then 1 else 0)) (apply_op now op db).
Proof.
  intros Hdb Hg.
  destruct op as [new_id ty pl| |i e st|i e d|]; cbn [apply_op is_recovery add_task fst].
  - rewrite Nat.add_0_r. apply within_budget_insert; [done|]. simpl. lia.
  - rewrite Nat.add_0_r. unfold fetch_next_task.
    destruct (select_next now db) as [[i t]|] eqn:E; simpl; [|done].
    apply within_budget_insert; [done|]. simpl.
    unfold select_next in E. apply first_row_spec in E as [Hin _].
    apply list_elem_of_filter in Hin as [_ Hin].
    apply elem_of_map_to_list in Hin. by apply (Hdb i t).
  - rewrite Nat.add_0_r. unfold complete_task.
    destruct (db !! i) as [t|] eqn:Hi; [|done].
    apply within_budget_insert; [done|]. specialize (Hdb i t Hi). simpl in Hdb.
    destruct st, (truthy e); simpl; lia.
  - rewrite Nat.add_0_r. unfold retry_task.
    simpl in Hg. destruct (db !! i) as [t|] eqn:Hi; [|done].
    apply within_budget_insert; [done|]. simpl.
    apply Nat.ltb_lt in Hg. lia.
  - intros i t Hi. rewrite recover_stale_tasks_lookup in Hi.
    destruct (db !! i) as [u|] eqn:Hu; [|done]. simpl in Hi.
    specialize (Hdb i u Hu). simpl in Hdb.
    destruct (is_stale _ u); simplify_eq; simpl; lia.
Qed.

Lemma recoveries_cons now op ops :
  recoveries ((now, op) :: ops) =
    ((if is_recovery op then 1 else 0) + recoveries ops)%nat.
Proof.
  unfold recoveries. rewrite filter_cons. simpl snd.
  destruct (is_recovery op); case_decide; done.
Qed.

(** C2 (as amended).  Along every sequence of enqueue, claim, complete,
    retry and stale-recovery operations in which [retry] is only applied,
    as the worker does, to a task with [retry_count < max_retries], every
    stored task satisfies [retry_count <= max_retries + r] after each
    operation, where [r] is the number of stale recoveries performed so
    far; in particular [retry_count <= max_retries] as long as no stale
    recovery has run. *)
Theorem retry_budget_exceeded_only_by_recoveries
    (ops : list (datetime * queue_op)) (db : TaskTable) (n : nat)
    (Hinit : within_budget 0 db)
    (Hguard : guarded ops db = true) :
  within_budget (recoveries (take n ops)) (run (take n ops) db).
Proof.
  revert db n Hinit Hguard.
  enough (forall k db n, within_budget k db -> guarded ops db = true ->
            within_budget (k + recoveries (take n ops)) (run (take n ops) db)) as H.
  { intros db n Hi Hg. apply (H 0%nat db n Hi Hg). }
  induction ops as [|[now op] ops IH]; intros k db n Hdb Hg.
  - rewrite take_nil. simpl. unfold recoveries. simpl. by rewrite Nat.add_0_r.
  - destruct n as [|n]; simpl.
    { unfold recoveries. simpl. by rewrite Nat.add_0_r. }
    simpl in Hg. apply andb_true_iff in Hg as [Hg1 Hg2].
    pose proof (apply_op_within_budget now op k db Hdb Hg1) as Hstep.
    specialize (IH _ _ n Hstep Hg2).
    eapply within_budget_mono; [|exact IH].
    rewrite recoveries_cons. lia.
Qed.

Lemma retry_budget_exceeded_only_by_recoveries_witness :
  within_budget (recoveries (take 9 crash_run)) (run (take 9 crash_run) ∅).
Proof.
  apply (retry_budget_exceeded_only_by_recoveries crash_run ∅ 9).
  - apply map_Forall_empty.
  - by vm_compute.
Defined.

(** C2 (as stated) fails: a task that has used its three retries is
    claimed once more, the worker dies, and stale recovery sixteen minutes
    later raises its [retry_count] to 4 while [max_retries] is 3.  Every
    [retry] of the run obeys the worker's guard. *)
Lemma stale_recovery_exceeds_max_retries :
  guarded crash_run ∅ = true /\
  (retry_count <$> run (take 8 crash_run) ∅ !! 1%N) = Some 3%nat /\
  (status <$> run (take 8 crash_run) ∅ !! 1%N) = Some PROCESSING /\
  (retry_count <$> run crash_run ∅ !! 1%N) = Some 4%nat /\
  (max_retries <$> run crash_run ∅ !! 1%N) = Some 3%nat /\
  ~ within_budget 0 (run crash_run ∅).
Proof.
  repeat split; try by vm_compute.
  intros H.
  assert (run crash_run ∅ !! 1%N =
          Some (mkTask "INGEST" ∅ PENDING 4 3 (s 0) None None (Some (s 70))
                       (Some "Task recovered from stale state"))) as Hrow
    by (by vm_compute).
  specialize (H _ _ Hrow). simpl in H. lia.
Qed.

End QueueFacts.

(** * Properties of the worker's failure policy *)

Section WorkerFacts.
Import TaskQueue Worker QueueRuns.

Lemma format_error_nonempty kind message : format_error kind message <> EmptyString.
Proof. unfold format_error. by destruct kind. Qed.

Lemma truthy_format_error kind message :
  truthy (Some (format_error kind message)) = true.
Proof.
  simpl. apply negb_true_iff, bool_decide_eq_false, format_error_nonempty.
Qed.

(** C3 (as amended).  When the processor registered for a claimed task
    raises an exception of kind [kind] with message [message], the worker
    forms the error "<kind>: <message>"; it retries the task with the
    default backoff if the claimed task's [retry_count] is strictly below
    its [max_retries], and otherwise completes it as [DEAD_LETTER] with
    that error.  Hence, for a task whose row is stored, the row is
    [DEAD_LETTER] afterwards exactly when the failure was observed while
    [retry_count >= max_retries] (which is [retry_count = max_retries] if
    the claimed task had [retry_count <= max_retries]); otherwise it is
    [PENDING] again. *)
Theorem process_task_failure_policy
    (now : datetime) (task : UUID * Task) (tasks : gmap string Processor)
    (db db1 : TaskTable) (processor : Processor) (kind message : string) (row : Task)
    (Hreg : tasks !! task_type (snd task) = Some processor)
    (Hraise : processor (payload (snd task)) db = (Raises kind message, db1))
    (Hrow : db1 !! fst task = Some row) :
  let error := kind +:+ ": " +:+ message in
  let db2 := _process_task now task tasks db in
  db2 = (if (retry_count (snd task) <? max_retries (snd task))%nat
         then retry_task now (fst task) error None db1
         else complete_task now (fst task) (Some error) (Some DEAD_LETTER) db1) /\
  (status <$> db2 !! fst task = Some DEAD_LETTER <->
     (max_retries (snd task) <= retry_count (snd task))%nat) /\
  ((retry_count (snd task) <= max_retries (snd task))%nat ->
     (status <$> db2 !! fst task = Some DEAD_LETTER <->
        retry_count (snd task) = max_retries (snd task))) /\
  ((max_retries (snd task) <= retry_count (snd task))%nat ->
     error_message <$> db2 !! fst task = Some (Some error) /\
     completed_at <$> db2 !! fst task = Some (Some now) /\
     retry_count <$> db2 !! fst task = Some (retry_count row)) /\
  ((retry_count (snd task) < max_retries (snd task))%nat ->
     status <$> db2 !! fst task = Some PENDING /\
     error_message <$> db2 !! fst task = Some (Some error) /\
     retry_count <$> db2 !! fst task = Some (retry_count row + 1)%nat).
Proof.
  intros error db2.
  assert (db2 = (if (retry_count (snd task) <? max_retries (snd task))%nat
         then retry_task now (fst task) error None db1
         else complete_task now (fst task) (Some error) (Some DEAD_LETTER) db1)) as Hdb2.
  { subst db2. unfold _process_task. cbv zeta. by rewrite Hreg, Hraise. }
  split; [done|]. rewrite Hdb2. clear Hdb2 db2.
  pose proof (truthy_format_error kind message) as Htr.
  fold error in Htr. unfold format_error in Htr. fold error in Htr.
  destruct (Nat.ltb_spec (retry_count (snd task)) (max_retries (snd task))) as [Hlt|Hge].
  - unfold retry_task. rewrite Hrow, lookup_insert_eq. simpl.
    split; [split; [done|lia]|]. split; [intros _; split; [done|lia]|].
    split; [lia|]. done.
  - unfold complete_task. rewrite Hrow, lookup_insert_eq.
    cbn [truthy] in Htr. cbn [truthy]. rewrite Htr. simpl.
    split; [done|]. split; [intros ?; split; [lia|done]|].
    split; [done|]. lia.
Qed.

Lemma process_task_failure_policy_witness :
  status <$> _process_task (s 1) (2%N, retried_task) failing_registry two_pending !! 2%N
    = Some DEAD_LETTER <->
  (max_retries retried_task <= retry_count retried_task)%nat.
Proof.
  refine (proj1 (proj2 (process_task_failure_policy (s 1) (2%N, retried_task)
            failing_registry two_pending two_pending always_fails
            "IOError" "disk" retried_task _ _ _))).
  - reflexivity.
  - reflexivity.
  - reflexivity.
Defined.

(** C3 (as stated) fails in its last clause: the task of [crash_run],
    whose [retry_count] stale recovery raised to 4 with [max_retries = 3],
    is claimed again and fails; the worker moves it to [DEAD_LETTER] although
    its [retry_count] does not equal its [max_retries]. *)
Lemma dead_letter_with_retry_count_above_max :
  match fetch_next_task (s 1030) (run crash_run ∅) with
  | (db, Some task) =>
      fst task = 1%N /\
      retry_count (snd task) = 4%nat /\
      max_retries (snd task) = 3%nat /\
      retry_count (snd task) <> max_retries (snd task) /\
      status <$> _process_task (s 1031) task failing_registry db !! 1%N
        = Some DEAD_LETTER
  | (_, None) => False
  end.
Proof. by vm_compute. Qed.

End WorkerFacts.

(** * Properties of path templating and sanitization *)

Section StripFacts.
Import PyStr.
Variable p : ascii -> bool.

Lemma lstrip_suffix l : lstrip_with p l `suffix_of` l.
Proof.
  induction l as [|c l IH]; simpl; [done|].
  destruct (p c); [by apply suffix_cons_r|done].
Qed.

Lemma lstrip_app_keep l c :
  p c = false -> lstrip_with p (l ++ [c]) = lstrip_with p l ++ [c].
Proof.
  intros Hc. induction l as [|a l IH]; simpl; [by rewrite Hc|].
  by destruct (p a).
Qed.

Lemma lstrip_idem l : lstrip_with p (lstrip_with p l) = lstrip_with p l.
Proof.
  induction l as [|c l IH]; simpl; [done|].
  destruct (p c) eqn:E; [done|]. simpl. by rewrite E.
Qed.

Lemma lstrip_fixed_head c l :
  lstrip_with p (c :: l) = c :: l -> p c = false.
Proof.
  simpl. destruct (p c); [|done]. intros Heq.
  pose proof (suffix_length _ _ (lstrip_suffix l)) as Hlen.
  rewrite Heq in Hlen. simpl in Hlen. lia.
Qed.

Lemma rstrip_cons_keep c l :
  p c = false -> rstrip_with p (c :: l) = c :: rstrip_with p l.
Proof.
  intros Hc. unfold rstrip_with. simpl rev.
  rewrite lstrip_app_keep by done. by rewrite rev_app_distr.
Qed.

Lemma rstrip_prefix l : rstrip_with p l `prefix_of` l.
Proof.
  unfold rstrip_with. destruct (lstrip_suffix (rev l)) as [k Hk].
  exists (rev k). rewrite <- rev_app_distr, <- Hk. by rewrite rev_involutive.
Qed.

Lemma rstrip_idem l : rstrip_with p (rstrip_with p l) = rstrip_with p l.
Proof. unfold rstrip_with. by rewrite rev_involutive, lstrip_idem. Qed.

Lemma strip_with_length l : (length (strip_with p l) <= length l)%nat.
Proof.
  unfold strip_with.
  pose proof (prefix_length _ _ (rstrip_prefix (lstrip_with p l))).
  pose proof (suffix_length _ _ (lstrip_suffix l)). lia.
Qed.

Lemma strip_with_length_eq l :
  (length l <= length (strip_with p l))%nat -> strip_with p l = l.
Proof.
  unfold strip_with. intros Hlen.
  pose proof (prefix_length _ _ (rstrip_prefix (lstrip_with p l))) as H1.
  pose proof (suffix_length _ _ (lstrip_suffix l)) as H2.
  assert (lstrip_with p l = l) as Hl.
  { apply suffix_length_eq; [apply lstrip_suffix|lia]. }
  rewrite Hl in *. apply prefix_length_eq; [apply rstrip_prefix|lia].
Qed.

Lemma strip_with_Forall (Q : ascii -> Prop) l :
  Forall Q l -> Forall Q (strip_with p l).
Proof.
  intros HQ. unfold strip_with.
  destruct (lstrip_suffix l) as [k1 Hk1].
  destruct (rstrip_prefix (lstrip_with p l)) as [k2 Hk2].
  rewrite Hk1, Hk2 in HQ.
  by apply Forall_app in HQ as [_ [HQ _]%Forall_app].
Qed.

Lemma strip_with_idem l : strip_with p (strip_with p l) = strip_with p l.
Proof.
  unfold strip_with.
  assert (lstrip_with p (rstrip_with p (lstrip_with p l))
          = rstrip_with p (lstrip_with p l)) as ->; [|apply rstrip_idem].
  pose proof (lstrip_idem l) as Hm.
  destruct (lstrip_with p l) as [|c m]; [done|].
  apply lstrip_fixed_head in Hm as Hc.
  rewrite rstrip_cons_keep by done. simpl. by rewrite Hc.
Qed.

Lemma lstrip_split l :
  exists pre, l = pre ++ lstrip_with p l /\ Forall (fun c => p c = true) pre.
Proof.
  induction l as [|c l (pre & Hl & Hpre)]; [by exists []|].
  simpl. destruct (p c) eqn:E; [|by exists []].
  exists (c :: pre). split; [by rewrite Hl at 1|by constructor].
Qed.

Lemma lstrip_head l c : head (lstrip_with p l) = Some c -> p c = false.
Proof.
  induction l as [|a l IH]; simpl; [done|].
  destruct (p a) eqn:E; [done|]. intros [= <-]. done.
Qed.

Lemma lstrip_skip pre l :
  Forall (fun c => p c = true) pre -> lstrip_with p (pre ++ l) = lstrip_with p l.
Proof. induction 1 as [|c pre Hc _ IH]; simpl; [done|]. by rewrite Hc. Qed.

Lemma lstrip_keep l :
  (forall c, head l = Some c -> p c = false) -> lstrip_with p l = l.
Proof. destruct l as [|c l]; [done|]. intros H. simpl. by rewrite (H c). Qed.

Lemma head_rev (l : list ascii) : head (rev l) = last l.
Proof.
  induction l as [|x l _] using rev_ind; [done|].
  by rewrite rev_app_distr, last_snoc.
Qed.

Lemma rstrip_split l :
  exists post, l = rstrip_with p l ++ post /\ Forall (fun c => p c = true) post.
Proof.
  unfold rstrip_with. destruct (lstrip_split (rev l)) as (pre & Hl & Hpre).
  exists (rev pre). split.
  - by rewrite <- rev_app_distr, <- Hl, rev_involutive.
  - by apply Forall_rev.
Qed.

Lemma rstrip_last l c : last (rstrip_with p l) = Some c -> p c = false.
Proof. unfold rstrip_with. rewrite <- head_rev, rev_involutive. apply lstrip_head. Qed.

Lemma rstrip_skip l post :
  Forall (fun c => p c = true) post -> rstrip_with p (l ++ post) = rstrip_with p l.
Proof.
  intros Hpost. unfold rstrip_with. rewrite rev_app_distr, lstrip_skip; [done|].
  by apply Forall_rev.
Qed.

Lemma rstrip_keep l :
  (forall c, last l = Some c -> p c = false) -> rstrip_with p l = l.
Proof.
  intros H. unfold rstrip_with. rewrite lstrip_keep; [apply rev_involutive|].
  intros c. rewrite head_rev. apply H.
Qed.

(** [strip_with p l] is [l] without its longest prefix and its longest
    suffix of characters in [p]. *)
Lemma strip_with_split l :
  exists pre post,
    l = pre ++ strip_with p l ++ post /\
    Forall (fun c => p c = true) pre /\ Forall (fun c => p c = true) post /\
    (forall c, head (strip_with p l) = Some c -> p c = false) /\
    (forall c, last (strip_with p l) = Some c -> p c = false).
Proof.
  unfold strip_with.
  destruct (lstrip_split l) as (pre & Hl & Hpre).
  destruct (rstrip_split (lstrip_with p l)) as (post & Hm & Hpost).
  exists pre, post. split; [by rewrite <- Hm|]. split; [done|]. split; [done|].
  split; [|apply rstrip_last].
  intros c Hc. apply (lstrip_head l).
  destruct (rstrip_prefix (lstrip_with p l)) as [k Hk].
  rewrite Hk. by destruct (rstrip_with p (lstrip_with p l)).
Qed.

Lemma strip_with_unique pre mid post :
  Forall (fun c => p c = true) pre -> Forall (fun c => p c = true) post ->
  (forall c, head mid = Some c -> p c = false) ->
  (forall c, last mid = Some c -> p c = false) ->
  mid <> [] ->
  strip_with p (pre ++ mid ++ post) = mid.
Proof.
  intros Hpre Hpost Hhead Hlast Hne. unfold strip_with.
  rewrite lstrip_skip by done.
  rewrite lstrip_keep.
  - rewrite rstrip_skip by done. by apply rstrip_keep.
  - intros c. destruct mid; [done|]. apply Hhead.
Qed.
End StripFacts.

Section SanitizeFacts.
Import PyStr Pathlib Paths.

Lemma chars_text l : chars (text l) = l.
Proof. apply list_ascii_of_string_of_list_ascii. Qed.

Lemma text_chars s : text (chars s) = s.
Proof. apply string_of_list_ascii_of_string. Qed.

Lemma text_inj l1 l2 : text l1 = text l2 -> l1 = l2.
Proof. intros Heq. by rewrite <- (chars_text l1), Heq, chars_text. Qed.

Lemma sub_invalid_valid l : valid_chars (sub_invalid l).
Proof.
  unfold valid_chars, sub_invalid. apply Forall_fmap, Forall_true.
  intros c. simpl. by destruct (is_invalid_char c) eqn:E.
Qed.

Lemma sub_invalid_id l : valid_chars l -> sub_invalid l = l.
Proof.
  unfold valid_chars, sub_invalid.
  induction 1 as [|c l Hc _ IH]; [done|]. rewrite fmap_cons, Hc. by f_equal.
Qed.


Lemma split_no_sep sep l : sep ∉ l -> split sep l = [l].
Proof.
  induction l as [|c l IH]; simpl; [done|].
  intros Hnin. apply not_elem_of_cons in Hnin as [Hne Hnin].
  rewrite decide_False by done. by rewrite IH.
Qed.

Lemma valid_no_slash t : valid_chars t -> slash ∉ t.
Proof.
  intros Hv Hin. unfold valid_chars in Hv. rewrite Forall_forall in Hv.
  by specialize (Hv _ Hin).
Qed.

Lemma name_of_single_component t :
  valid_chars t -> (2 <= length t)%nat -> name (Path_of (text t)) = text t.
Proof.
  intros Hv Hlen. unfold Path_of, name. simpl.
  rewrite chars_text, split_no_sep by by apply valid_no_slash.
  rewrite filter_cons, decide_True; [done|].
  unfold keep_part. rewrite !bool_decide_eq_false_2; [done| |].
  - intros ->. simpl in Hlen. lia.
  - intros ->. simpl in Hlen. lia.
Qed.

Lemma rfind_lt c l i : rfind c l = Some i -> (i < length l)%nat.
Proof.
  revert i. induction l as [|x l IH]; intros i; simpl; [done|].
  destruct (rfind c l) as [j|].
  - intros [= <-]. specialize (IH j eq_refl). lia.
  - case_decide; [|done]. intros [= <-]. lia.
Qed.

Lemma suffix_index_bounds t i :
  suffix_index t = Some i -> (0 < i < length t - 1)%nat.
Proof.
  unfold suffix_index. destruct (rfind dot t) as [j|]; [|done].
  destruct ((0 <? j)%nat && (j <? length t - 1)%nat) eqn:E; [|done].
  intros [= <-]. apply andb_true_iff in E as [H1 H2].
  apply Nat.ltb_lt in H1, H2. lia.
Qed.

Lemma slice_to_prefix k l : slice_to k l `prefix_of` l.
Proof.
  unfold slice_to. destruct (k <? 0).
  - exists (drop (length l - Z.to_nat (- k)) l). by rewrite take_drop.
  - exists (drop (Z.to_nat k) l). by rewrite take_drop.
Qed.

Lemma slice_to_length k l :
  length (slice_to k l) =
    if k <? 0 then (length l - Z.to_nat (- k))%nat
    else Nat.min (Z.to_nat k) (length l).
Proof.
  unfold slice_to. destruct (k <? 0); rewrite length_take; lia.
Qed.

Lemma truncate_name_valid t : valid_chars t -> valid_chars (truncate_name t).
Proof.
  unfold truncate_name, valid_chars. intros Hv.
  destruct (suffix_index t) as [i|].
  - apply Forall_app. split; [|by apply Forall_drop].
    destruct (slice_to_prefix (Z.of_nat MAX_SEGMENT_LENGTH - Z.of_nat (length (drop i t)))
                (take i t)) as [k Hk].
    apply (Forall_take _ i) in Hv. rewrite Hk in Hv.
    by apply Forall_app in Hv as [? _].
  - destruct (slice_to_prefix (Z.of_nat MAX_SEGMENT_LENGTH) t) as [k Hk].
    rewrite Hk in Hv. by apply Forall_app in Hv as [? _].
Qed.

Lemma truncate_name_shorter t :
  (MAX_SEGMENT_LENGTH < length t)%nat ->
  (length (truncate_name t) < length t)%nat.
Proof.
  unfold truncate_name, MAX_SEGMENT_LENGTH. intros Hlen.
  destruct (suffix_index t) as [i|] eqn:E.
  - apply suffix_index_bounds in E.
    rewrite length_app, slice_to_length, length_take, length_drop.
    rewrite (Nat.min_l i) by lia.
    destruct (_ <? 0) eqn:Hk.
    + apply Z.ltb_lt in Hk.
      assert (Z.to_nat (- (Z.of_nat 200 - Z.of_nat (length t - i)))
              = length t - i - 200)%nat as -> by lia.
      lia.
    + apply Z.ltb_ge in Hk.
      assert (Z.to_nat (Z.of_nat 200 - Z.of_nat (length t - i))
              = 200 - (length t - i))%nat as -> by lia.
      lia.
  - rewrite slice_to_length.
    change (Z.of_nat 200 <? 0) with false. cbv iota.
    rewrite Nat2Z.id. lia.
Qed.

(** [sanitize_filename], with the path operations of the truncation
    step resolved. *)
Lemma sanitize_filename_unfold s :
  sanitize_filename s =
    text (let t := strip_chars dot_and_whitespace (sub_invalid (chars s)) in
          if (MAX_SEGMENT_LENGTH <? length t)%nat then truncate_name t else t).
Proof.
  unfold sanitize_filename. cbv zeta.
  set (t := strip_chars dot_and_whitespace (sub_invalid (chars s))).
  destruct (MAX_SEGMENT_LENGTH <? length t)%nat eqn:Hlen; [|done].
  apply Nat.ltb_lt in Hlen. unfold MAX_SEGMENT_LENGTH in Hlen.
  assert (valid_chars t) as Hv.
  { apply strip_with_Forall, sub_invalid_valid. }
  unfold suffix, stem, truncate_name, len.
  rewrite name_of_single_component by (done || lia).
  rewrite chars_text.
  destruct (suffix_index t) as [i|]; rewrite !chars_text; [done|].
  simpl chars. rewrite app_nil_r. simpl length.
  by rewrite Z.sub_0_r.
Qed.

Lemma sanitize_filename_valid s : valid_chars (chars (sanitize_filename s)).
Proof.
  rewrite sanitize_filename_unfold, chars_text. cbv zeta.
  assert (valid_chars (strip_chars dot_and_whitespace (sub_invalid (chars s)))) as Hv.
  { apply strip_with_Forall, sub_invalid_valid. }
  destruct (_ <? _)%nat; [by apply truncate_name_valid|done].
Qed.

(** [sanitize_filename] on an argument that is already free of invalid
    characters. *)
Lemma sanitize_filename_of_valid r :
  valid_chars (chars r) ->
  sanitize_filename r =
    text (let t := strip_chars dot_and_whitespace (chars r) in
          if (MAX_SEGMENT_LENGTH <? length t)%nat then truncate_name t else t).
Proof. intros Hv. by rewrite sanitize_filename_unfold, sub_invalid_id. Qed.

Lemma sanitize_filename_fixed_iff r :
  valid_chars (chars r) ->
  sanitize_filename r = r <->
  (len r <= MAX_SEGMENT_LENGTH)%nat /\
  strip_chars dot_and_whitespace (chars r) = chars r.
Proof.
  intros Hv. rewrite sanitize_filename_of_valid by done. cbv zeta. unfold len.
  pose proof (strip_with_length (in_chars dot_and_whitespace) (chars r)) as Hle.
  fold (strip_chars dot_and_whitespace (chars r)) in Hle.
  split.
  - intros Heq. apply (f_equal chars) in Heq. rewrite chars_text in Heq.
    destruct (Nat.ltb_spec MAX_SEGMENT_LENGTH
                (length (strip_chars dot_and_whitespace (chars r)))) as [Hlong|Hshort].
    + apply truncate_name_shorter in Hlong as Hlt. rewrite Heq in Hlt. lia.
    + rewrite Heq in Hshort. done.
  - intros [Hlen Hfix]. rewrite Hfix.
    destruct (Nat.ltb_spec MAX_SEGMENT_LENGTH (length (chars r))); [lia|].
    apply text_chars.
Qed.

(** Where [sanitize_filename] is idempotent.  For every string [s],
    sanitizing the result [r = sanitize_filename s] once more gives [r] again
    exactly when [r] has at most 200 characters and neither begins nor ends
    with a character of the strip set (stripping [r] leaves it unchanged).
    This is so in particular whenever [s], after replacing the invalid
    characters and stripping, has at most 200 characters, so that nothing is
    truncated. *)
Theorem sanitize_filename_idempotent_iff (s : string) :
  let r := sanitize_filename s in
  (sanitize_filename r = r <->
     (len r <= MAX_SEGMENT_LENGTH)%nat /\
     strip_chars dot_and_whitespace (chars r) = chars r) /\
  ((length (strip_chars dot_and_whitespace (sub_invalid (chars s)))
      <= MAX_SEGMENT_LENGTH)%nat ->
   sanitize_filename r = r).
Proof.
  intros r. split.
  - apply sanitize_filename_fixed_iff, sanitize_filename_valid.
  - intros Hshort.
    apply sanitize_filename_fixed_iff; [apply sanitize_filename_valid|].
    subst r. rewrite sanitize_filename_unfold. cbv zeta.
    destruct (Nat.ltb_spec MAX_SEGMENT_LENGTH
                (length (strip_chars dot_and_whitespace (sub_invalid (chars s)))));
      [lia|].
    unfold len. rewrite chars_text. split; [done|].
    apply strip_with_idem.
Qed.

(** C9, evaluated on the code.  As long as nothing is truncated (the name
    has at most 200 characters after the invalid characters are replaced and
    the ends stripped), sanitizing twice is sanitizing once.  The truncation
    of a longer name runs after the strip and breaks this in two ways.

    The 210-character name [long_name] (199 times [a], a space, ten times
    [b]) is cut to its first 200 characters, which end in the space; a second
    application strips that space and returns 199 characters.

    The name [long_extension_name] ([a.] and 300 times [b]) has an extension
    of 301 characters: the slice bound [200 - 301] is negative, the stem is
    cut to nothing and the result is the whole extension, 301 characters
    beginning with a dot, longer than [MAX_SEGMENT_LENGTH]; a second
    application strips the dot and returns 200 times [b]. *)
Theorem sanitize_filename_truncation_slips :
  (forall s,
     (length (strip_chars dot_and_whitespace (sub_invalid (chars s)))
        <= MAX_SEGMENT_LENGTH)%nat ->
     sanitize_filename (sanitize_filename s) = sanitize_filename s) /\
  (len long_name = 210%nat /\
   sanitize_filename long_name = text (repeat "a"%char 199 ++ [" "%char]) /\
   sanitize_filename (sanitize_filename long_name) = text (repeat "a"%char 199) /\
   sanitize_filename (sanitize_filename long_name) <> sanitize_filename long_name) /\
  (len long_extension_name = 302%nat /\
   sanitize_filename long_extension_name = text ("."%char :: repeat "b"%char 300) /\
   (MAX_SEGMENT_LENGTH < len (sanitize_filename long_extension_name))%nat /\
   sanitize_filename (sanitize_filename long_extension_name)
     = text (repeat "b"%char 200) /\
   sanitize_filename (sanitize_filename long_extension_name)
     <> sanitize_filename long_extension_name).
Proof.
  split; [|split].
  - intros s Hshort.
    apply sanitize_filename_fixed_iff; [apply sanitize_filename_valid|].
    rewrite sanitize_filename_unfold. cbv zeta.
    destruct (Nat.ltb_spec MAX_SEGMENT_LENGTH
                (length (strip_chars dot_and_whitespace (sub_invalid (chars s)))));
      [lia|].
    unfold len. rewrite chars_text. split; [done|].
    apply strip_with_idem.
  - assert (sanitize_filename long_name = text (repeat "a"%char 199 ++ [" "%char]))
      as H1 by (by vm_compute).
    assert (sanitize_filename (sanitize_filename long_name)
            = text (repeat "a"%char 199)) as H2 by (by vm_compute).
    split; [by vm_compute|]. split; [done|]. split; [done|].
    rewrite H2, H1. intros Heq. apply (f_equal len) in Heq.
    vm_compute in Heq. discriminate.
  - assert (sanitize_filename long_extension_name
            = text ("."%char :: repeat "b"%char 300)) as H1 by (by vm_compute).
    assert (sanitize_filename (sanitize_filename long_extension_name)
            = text (repeat "b"%char 200)) as H2 by (by vm_compute).
    split; [by vm_compute|]. split; [done|].
    split; [rewrite H1; vm_compute; lia|]. split; [done|].
    rewrite H2, H1. intros Heq. apply (f_equal len) in Heq.
    vm_compute in Heq. discriminate.
Qed.

End SanitizeFacts.

Section ScanFacts.
Import PyStr Pathlib Paths.

(** The bounds of the two scanning loops are never reached: any bound
    of at least the length of the text gives the same result. *)
Lemma replace_scan_fuel (old new : list ascii) (fuel1 fuel2 : nat) (l : list ascii) :
  old <> [] ->
  (length l <= fuel1)%nat -> (length l <= fuel2)%nat ->
  replace_scan fuel1 old new l = replace_scan fuel2 old new l.
Proof.
  intros Hold. revert fuel2 l.
  induction fuel1 as [|fuel1 IH]; intros fuel2 l H1 H2.
  - destruct l; [|simpl in H1; lia]. by destruct fuel2.
  - destruct l as [|c r]; [by destruct fuel2|].
    destruct fuel2 as [|fuel2]; [simpl in H2; lia|].
    simpl in H1, H2. cbn [replace_scan].
    destruct (startswith old (c :: r)).
    + f_equal. destruct old as [|o old']; [done|].
      cbn [length drop].
      pose proof (length_drop r (length old')).
      apply IH; lia.
    + f_equal. apply IH; lia.
Qed.

Lemma span_word_length (l w rest : list ascii) :
  span_word l = (w, rest) -> length l = (length w + length rest)%nat.
Proof.
  revert w rest. induction l as [|c r IH]; intros w rest; simpl.
  - by intros [= <- <-].
  - destruct (is_word_char c).
    + destruct (span_word r) as [w' rest'] eqn:E. intros [= <- <-].
      simpl. by rewrite (IH w' rest' eq_refl).
    + by intros [= <- <-].
Qed.

Lemma match_var_shorter (l w rest : list ascii) :
  match_var l = Some (w, rest) -> (length rest < length l)%nat.
Proof.
  destruct l as [|c r]; simpl; [done|].
  case_decide; [|done].
  destruct (span_word r) as [[|a w'] [|c' rest']] eqn:E; try done.
  case_decide; [|done]. intros [= <- <-].
  apply span_word_length in E. simpl in *. lia.
Qed.

Lemma finditer_scan_fuel (fuel1 fuel2 : nat) (l : list ascii) :
  (length l <= fuel1)%nat -> (length l <= fuel2)%nat ->
  finditer_scan fuel1 l = finditer_scan fuel2 l.
Proof.
  revert fuel2 l. induction fuel1 as [|fuel1 IH]; intros fuel2 l H1 H2.
  - destruct l; [|simpl in H1; lia]. by destruct fuel2.
  - destruct l as [|c r]; [by destruct fuel2|].
    destruct fuel2 as [|fuel2]; [simpl in H2; lia|].
    simpl in H1, H2. cbn [finditer_scan].
    destruct (match_var (c :: r)) as [[w rest]|] eqn:E.
    + apply match_var_shorter in E. simpl in E. f_equal. apply IH; lia.
    + apply IH; lia.
Qed.

End ScanFacts.

Section RenderFacts.
Import PyStr Pathlib Paths.

Lemma filter_strip_segments (segs : list (list ascii)) :
  strip <$> filter (fun seg => strip seg <> []) segs =
  filter (fun seg => seg <> []) (strip <$> segs).
Proof.
  induction segs as [|seg segs IH]; [done|].
  rewrite fmap_cons, !filter_cons.
  destruct (decide (strip seg <> [])); [|done].
  rewrite fmap_cons. by f_equal.
Qed.

Lemma dict_get_insert_None metadata k k' :
  dict_get (<[k := None]> metadata) k' = dict_get (delete k metadata) k'.
Proof.
  unfold dict_get. destruct (decide (k = k')) as [->|Hne].
  - by rewrite lookup_insert_eq, lookup_delete_eq.
  - by rewrite lookup_insert_ne, lookup_delete_ne.
Qed.

Lemma substitute_ext pattern m1 m2 :
  (forall k, dict_get m1 k = dict_get m2 k) ->
  substitute pattern m1 = substitute pattern m2.
Proof.
  intros Hext. unfold substitute.
  generalize (chars pattern) at 1 3. induction (finditer (chars pattern)) as [|v vs IH];
    intros acc; [done|].
  simpl. rewrite <- IH. f_equal. unfold substitute_var. by rewrite Hext.
Qed.

Lemma split_app_sep sep x m :
  sep ∉ x -> split sep (x ++ sep :: m) = x :: split sep m.
Proof.
  induction x as [|c x IH]; intros Hx; simpl.
  - by rewrite decide_True.
  - apply not_elem_of_cons in Hx as [Hc Hx].
    rewrite decide_False by done. by rewrite IH.
Qed.

Lemma split_segments_no_sep sep l : Forall (fun seg => sep ∉ seg) (split sep l).
Proof.
  induction l as [|c l IH]; simpl.
  - repeat constructor. apply not_elem_of_nil.
  - destruct (decide (c = sep)) as [->|Hc].
    + constructor; [apply not_elem_of_nil|done].
    + destruct (split sep l) as [|seg segs].
      { repeat constructor. by intros ->%list_elem_of_singleton. }
      apply Forall_cons in IH as [Hseg Hsegs].
      constructor; [|done]. by apply not_elem_of_cons.
Qed.

Lemma split_join sep segs :
  segs <> [] -> Forall (fun seg => sep ∉ seg) segs ->
  split sep (join [sep] segs) = segs.
Proof.
  intros Hne Hall. induction Hall as [|seg segs Hseg Hall IH]; [done|].
  destruct segs as [|seg' segs]; [by apply split_no_sep|].
  change (join [sep] (seg :: seg' :: segs))
    with (seg ++ sep :: join [sep] (seg' :: segs)).
  rewrite split_app_sep by done. by rewrite IH.
Qed.

(** The segments [render] keeps: the stripped segments of the substituted
    text that are not empty. *)
Lemma render_segments result :
  Forall (fun seg => (slash ∉ seg) /\ seg <> [])
    (strip <$> filter (fun seg => strip seg <> []) (split slash result)).
Proof.
  apply Forall_fmap, Forall_forall. intros seg Hin.
  apply list_elem_of_filter in Hin as [Hne Hin]. split; [|done]. simpl.
  pose proof (split_segments_no_sep slash result) as Hall.
  rewrite Forall_forall in Hall. specialize (Hall _ Hin).
  assert (Forall (fun c => c <> slash) (strip seg)) as Hs.
  { apply strip_with_Forall, Forall_forall. intros c Hc ->. done. }
  rewrite Forall_forall in Hs. intros Hc. by apply (Hs _ Hc).
Qed.

Lemma render_parts pattern metadata :
  is_absolute (render pattern metadata) = false /\
  parts (render pattern metadata) =
    text <$> filter (fun seg => seg <> [dot])
               (strip <$> filter (fun seg => strip seg <> [])
                            (split slash (substitute pattern metadata))).
Proof.
  unfold render. cbv zeta.
  pose proof (render_segments (substitute pattern metadata)) as Hsegs.
  destruct (strip <$> filter _ _) as [|seg segs] eqn:E; [done|].
  unfold Path_of. cbv zeta. cbn [is_absolute parts]. rewrite chars_text.
  split.
  - apply Forall_cons in Hsegs as [[Hslash Hne] _].
    destruct seg as [|c seg]; [done|].
    apply not_elem_of_cons in Hslash as [Hc _].
    destruct segs; simpl; by rewrite bool_decide_eq_false_2.
  - rewrite split_join; [|done|by eapply Forall_impl; [exact Hsegs|intros ? []]].
    f_equal. clear E. induction Hsegs as [|s l [_ Hs] _ IH]; [done|].
    rewrite !filter_cons, IH. unfold keep_part.
    rewrite (bool_decide_eq_false_2 (s = [])) by done. cbn [negb andb].
    destruct (decide (s = [dot])) as [->|Hd].
    + by rewrite decide_False, decide_False by (by intros ?).
    + rewrite bool_decide_eq_false_2 by done. by rewrite !decide_True.
Qed.

(** C8.  [render] replaces each placeholder whose value is missing or
    null by the empty string (a null value renders like a missing one); it
    then splits the result on the slash, strips each segment, drops the empty
    segments and rejoins the rest; when every segment is empty the result is
    the path [.].  The template [{author}/{series}/{title}] renders to [A/T]
    for author A, no series and title T, and to [.] when all three are
    null.

    Stripping is the removal of white space, and the statement says so
    without [strip]: every part of the rendered path is a segment of the
    substituted text without the white space in front of it and behind it
    (it is not empty and neither begins nor ends with a white space
    character); conversely every segment that has, between white space, a
    text other than a single dot gives that text as a part; and when every
    segment consists of white space only the result is [.].  The template
    with white space around its segments ([spaced_template], and the one with
    spaces only) renders to [A/T] and to [.] as well. *)
Theorem render_drops_empty_segments
    (pattern : string) (metadata : gmap string (option string)) :
  (forall result var_name,
     dict_get metadata (text var_name) = None ->
     substitute_var metadata result var_name =
       replace (placeholder var_name) [] result) /\
  (forall k, render pattern (<[k := None]> metadata) =
             render pattern (delete k metadata)) /\
  render pattern metadata = rejoin_segments (substitute pattern metadata) /\
  ((forall seg, seg ∈ split slash (substitute pattern metadata) -> strip seg = []) ->
   str (render pattern metadata) = ".") /\
  str (render "{author}/{series}/{title}" meta_A_T) = "A/T" /\
  str (render "{author}/{series}/{title}" meta_all_null) = "." /\
  (forall part, part ∈ parts (render pattern metadata) ->
     part <> EmptyString /\
     (forall c, head (chars part) = Some c -> is_space c = false) /\
     (forall c, last (chars part) = Some c -> is_space c = false) /\
     exists seg pre post,
       seg ∈ split slash (substitute pattern metadata) /\
       seg = pre ++ chars part ++ post /\
       Forall (fun c => is_space c = true) pre /\
       Forall (fun c => is_space c = true) post) /\
  (forall seg pre mid post,
     seg ∈ split slash (substitute pattern metadata) ->
     seg = pre ++ mid ++ post ->
     Forall (fun c => is_space c = true) pre ->
     Forall (fun c => is_space c = true) post ->
     (forall c, head mid = Some c -> is_space c = false) ->
     (forall c, last mid = Some c -> is_space c = false) ->
     mid <> [] -> mid <> [dot] ->
     text mid ∈ parts (render pattern metadata)) /\
  ((forall seg, seg ∈ split slash (substitute pattern metadata) ->
      Forall (fun c => is_space c = true) seg) ->
   str (render pattern metadata) = ".") /\
  str (render " {author} / {series} / {title} " meta_A_T) = "A/T" /\
  str (render " {author} / {series} / {title} " meta_all_null) = "." /\
  parts (render spaced_template meta_A_T) = ["A"; "T"] /\
  str (render spaced_template meta_all_null) = ".".
Proof.
  assert ((forall seg, seg ∈ split slash (substitute pattern metadata) ->
             strip seg = []) ->
          str (render pattern metadata) = ".") as Hdot.
  { intros Hempty. unfold render. cbv zeta.
    assert (filter (fun seg => strip seg <> [])
              (split slash (substitute pattern metadata)) = []) as ->; [|done].
    induction (split slash (substitute pattern metadata)) as [|seg segs IH]; [done|].
    rewrite filter_cons, decide_False.
    + apply IH. intros seg' Hin. apply Hempty. by right.
    + intros Hne. apply Hne, Hempty. by left. }
  split; [|split; [|split; [|split; [|split; [|split]]]]].
  - intros result var_name Hnone. unfold substitute_var. by rewrite Hnone.
  - intros k. unfold render.
    by rewrite (substitute_ext pattern _ _ (dict_get_insert_None metadata k)).
  - unfold render, rejoin_segments. cbv zeta.
    rewrite filter_strip_segments.
    destruct (filter _ _) as [|seg segs]; [done|].
    by rewrite bool_decide_eq_false_2.
  - exact Hdot.
  - by vm_compute.
  - by vm_compute.
  - split; [|split; [|split; [|split; [|split; [|split]]]]].
    + intros part Hin. rewrite (proj2 (render_parts pattern metadata)) in Hin.
      apply list_elem_of_fmap in Hin as (seg' & -> & Hin).
      apply list_elem_of_filter in Hin as [_ Hin].
      apply list_elem_of_fmap in Hin as (seg & -> & Hin).
      apply list_elem_of_filter in Hin as [Hne Hin].
      rewrite chars_text.
      destruct (strip_with_split is_space seg)
        as (pre & post & Heq & Hpre & Hpost & Hh & Hl).
      fold (strip seg) in *.
      split; [intros Ht; by apply (text_inj _ []) in Ht|].
      split; [done|]. split; [done|]. by exists seg, pre, post.
    + intros seg pre mid post Hin -> Hpre Hpost Hh Hl Hne Hnd.
      assert (strip (pre ++ mid ++ post) = mid) as Hmid
        by (by apply strip_with_unique).
      rewrite (proj2 (render_parts pattern metadata)).
      apply list_elem_of_fmap. exists mid. split; [done|].
      apply list_elem_of_filter. split; [done|].
      apply list_elem_of_fmap. exists (pre ++ mid ++ post). split; [done|].
      apply list_elem_of_filter. split; [by rewrite Hmid|done].
    + intros Hspace. apply Hdot. intros seg Hin.
      unfold strip, strip_with.
      rewrite <- (app_nil_r seg), lstrip_skip by (by apply Hspace).
      done.
    + by vm_compute.
    + by vm_compute.
    + by vm_compute.
    + by vm_compute.
Qed.

End RenderFacts.

Section SeriesIndexFacts.
Import PyStr Pathlib Paths Organizer.

Lemma organize_metadata_series_index (book : Book) :
  organize_metadata book !! "series_index" =
    Some (match series_index book with
          | Some n => if bool_decide (n = 0) then None else Some (format_02d n)
          | None => None
          end).
Proof. done. Qed.

(** C10, evaluated on the code.  For a book whose [series_index] is the
    integer 0, [get_organize_path] supplies no value for the template
    variable [series_index] (it is null, and renders as the empty string),
    although the two-digit rendering of 0 is [00]; for every other integer
    [n] it supplies [n] formatted with [02d]. *)
Theorem series_index_zero_is_omitted (book : Book) :
  dict_get (organize_metadata (set_series_index (Some 0) book)) "series_index" = None /\
  format_02d 0 = "00" /\
  format_02d 7 = "07" /\
  (forall n, n <> 0 ->
     dict_get (organize_metadata (set_series_index (Some n) book)) "series_index"
       = Some (format_02d n)) /\
  str (render "{series_index}"
         (organize_metadata (set_series_index (Some 0) book))) = ".".
Proof.
  split; [|split; [|split; [|split]]].
  - unfold dict_get. by rewrite organize_metadata_series_index.
  - by vm_compute.
  - by vm_compute.
  - intros n Hn. unfold dict_get. rewrite organize_metadata_series_index. simpl.
    by rewrite bool_decide_eq_false_2.
  - unfold render, substitute.
    change (finditer (chars "{series_index}")) with [chars "series_index"].
    simpl foldl. unfold substitute_var.
    change (text (chars "series_index")) with "series_index".
    unfold dict_get. rewrite organize_metadata_series_index. simpl.
    by vm_compute.
Qed.

End SeriesIndexFacts.

(** * Properties of the organizer *)

Section OrganizerFacts.
Import PyStr Pathlib Paths Sys Organizer.
Context {W : Type} `{FileSystem W}.

Lemma try_except_reraise {A} (m : M W A) (catches : exn -> bool) (st : fs_state W) :
  try_except m catches (fun e => raise e) st = m st.
Proof.
  unfold try_except, raise. destruct (m st) as [st' [a|e]]; [done|].
  by destruct (catches e).
Qed.

Lemma unique_loop_spec (fuel counter : nat) (path : Path) (st : fs_state W) :
  (counter + fuel = 1001)%nat ->
  unique_loop fuel counter path st =
    (st, match snd <$> list_find (fun p => path_exists (world st) p = false)
                         (sibling path <$> seq counter fuel) with
         | Some p => Ok p
         | None => Raise (exhausted path)
         end).
Proof.
  revert counter. induction fuel as [|fuel IH]; intros counter Hsum; [done|].
  simpl unique_loop. unfold bind, do_exists.
  simpl seq. rewrite fmap_cons. simpl list_find.
  destruct (path_exists (world st) (sibling path counter)) eqn:Hex.
  - rewrite decide_False by done. cbv beta iota zeta.
    destruct (Nat.ltb_spec 1000 (counter + 1)) as [Hlast|Hmore]; cbn [negb].
    + assert (fuel = 0%nat) as -> by lia. done.
    + rewrite IH by lia. replace (counter + 1)%nat with (S counter) by lia.
      by destruct (list_find _ _) as [[i p]|].
  - by rewrite decide_True.
Qed.

Lemma generate_unique_path_spec (path : Path) (st : fs_state W) :
  _generate_unique_path path st =
    (st, match first_free_sibling (world st) path with
         | Some p => Ok p
         | None => Raise (exhausted path)
         end).
Proof. unfold _generate_unique_path, first_free_sibling. by apply unique_loop_spec. Qed.

Lemma first_free_sibling_spec (w : W) (path : Path) :
  match first_free_sibling w path with
  | Some unique =>
      exists n, (1 <= n <= 1000)%nat /\ unique = sibling path n /\
                path_exists w unique = false /\
                forall m, (1 <= m < n)%nat -> path_exists w (sibling path m) = true
  | None =>
      forall n, (1 <= n <= 1000)%nat -> path_exists w (sibling path n) = true
  end.
Proof.
  unfold first_free_sibling.
  destruct (list_find _ _) as [[i p]|] eqn:E; simpl.
  - apply list_find_Some in E as (Hi & Hp & Hbefore).
    rewrite list_lookup_fmap in Hi.
    destruct (seq 1 1000 !! i) as [n|] eqn:Hn; [|done].
    apply lookup_seq in Hn as [-> Hlt]. injection Hi as <-.
    exists (1 + i)%nat. split; [lia|]. split; [done|]. split; [done|].
    intros m Hm. specialize (Hbefore (m - 1)%nat (sibling path m)).
    destruct (path_exists w (sibling path m)); [done|].
    exfalso. apply Hbefore; [|lia|done].
    rewrite list_lookup_fmap, lookup_seq_lt by lia. simpl. do 2 f_equal. lia.
  - intros n Hn. apply list_find_None in E. rewrite Forall_forall in E.
    specialize (E (sibling path n)).
    destruct (path_exists w (sibling path n)); [done|].
    exfalso. apply E; [|done].
    apply list_elem_of_fmap. exists n. split; [done|]. apply elem_of_seq. lia.
Qed.

Lemma relocate_steps (book : Book) (original_path unique : Path) (st : fs_state W) :
  relocate book original_path unique st =
    match mkdir (world st) (parent unique) with
    | (w2, Some e) => (mkState w2 (calls st ++ [Mkdir (parent unique)]), Raise e)
    | (w2, None) =>
        match shutil_move w2 (str original_path) (str unique) with
        | (w3, Some e) =>
            (mkState w3 (calls st ++ [Mkdir (parent unique);
                                      Move (str original_path) (str unique)]),
             Raise e)
        | (w3, None) =>
            match move_kepub book unique
                    (mkState w3 (calls st ++ [Mkdir (parent unique);
                                              Move (str original_path) (str unique)])) with
            | (st', Ok book') => (st', Ok (book', Some (str unique)))
            | (st', Raise e) => (st', Raise e)
            end
        end
    end.
Proof.
  unfold relocate, bind. rewrite try_except_reraise.
  unfold do_mkdir, lift_change.
  destruct (mkdir (world st) (parent unique)) as [w2 [e|]]; [done|].
  rewrite try_except_reraise. unfold do_move, lift_change. simpl world. simpl calls.
  rewrite <- app_assoc. simpl app.
  destruct (shutil_move w2 _ _) as [w3 [e|]]; [done|].
  by destruct (move_kepub _ _ _) as [st' [book'|e]].
Qed.

(** C5.  Let organization be enabled and let the computed target path of
    a book differ from its current path and exist.  If hashing the target
    succeeds with [book.file_hash] and deleting the current path succeeds,
    [organize_book] returns the target path, having called [unlink] on the
    current path and nothing else.  In every other case (hash mismatch, hash
    error, failed deletion) it renames: it raises [OSError] when the 1000
    sibling names [stem_N suffix], [N] from 1 to 1000, all exist, and
    otherwise creates the parent directories of the first of them that does
    not exist and moves the file there.  [_generate_unique_path] returns that
    first free sibling, or raises after the 1000 attempts. *)
Theorem organize_book_existing_target
    (settings : Settings) (book : Book) (st : fs_state W) (original target : Path)
    (Henabled : ORGANIZE_LIBRARY settings = true)
    (Hpaths : get_organize_path settings book = (original, target))
    (Hdiffer : target <> original)
    (Hexists : path_exists (world st) target = true) :
  organize_book settings book st =
    match get_file_hash (world st) target with
    | Ok target_hash =>
        if bool_decide (target_hash = file_hash book) then
          match unlink (world st) original with
          | (w1, None) =>
              (mkState w1 (calls st ++ [Unlink original]),
               Ok (book, Some (str target)))
          | (w1, Some _) =>
              rename_away book original target
                (mkState w1 (calls st ++ [Unlink original]))
          end
        else rename_away book original target st
    | Raise _ => rename_away book original target st
    end /\
  (forall st1 : fs_state W,
     _generate_unique_path target st1 =
       (st1, match first_free_sibling (world st1) target with
             | Some unique => Ok unique
             | None => Raise (exhausted target)
             end) /\
     match first_free_sibling (world st1) target with
     | Some unique =>
         (exists n, (1 <= n <= 1000)%nat /\ unique = sibling target n /\
                    path_exists (world st1) unique = false /\
                    forall m, (1 <= m < n)%nat ->
                              path_exists (world st1) (sibling target m) = true) /\
         rename_away book original target st1 =
           match mkdir (world st1) (parent unique) with
           | (w2, Some e) =>
               (mkState w2 (calls st1 ++ [Mkdir (parent unique)]), Raise e)
           | (w2, None) =>
               match shutil_move w2 (str original) (str unique) with
               | (w3, Some e) =>
                   (mkState w3 (calls st1 ++ [Mkdir (parent unique);
                                              Move (str original) (str unique)]),
                    Raise e)
               | (w3, None) =>
                   match move_kepub book unique
                           (mkState w3 (calls st1 ++
                                          [Mkdir (parent unique);
                                           Move (str original) (str unique)])) with
                   | (st', Ok book') => (st', Ok (book', Some (str unique)))
                   | (st', Raise e) => (st', Raise e)
                   end
               end
           end
     | None =>
         (forall n, (1 <= n <= 1000)%nat ->
                    path_exists (world st1) (sibling target n) = true) /\
         rename_away book original target st1 = (st1, Raise (exhausted target))
     end).
Proof.
  split.
  - assert (forall st1, (let* new_path := _generate_unique_path target in
                         ret (inr new_path) : M W (string + Path)) st1
                        = match first_free_sibling (world st1) target with
                          | Some unique => (st1, Ok (inr unique))
                          | None => (st1, Raise (exhausted target))
                          end) as Hgen.
    { intros st1. unfold bind. rewrite generate_unique_path_spec.
      by destruct (first_free_sibling _ _). }
    unfold organize_book. rewrite Henabled, Hpaths. cbn [negb]. cbv iota.
    rewrite bool_decide_eq_false_2 by done.
    unfold bind at 1. unfold do_exists at 1. rewrite Hexists.
    unfold bind at 1. unfold resolve_existing.
    unfold bind at 1. unfold try_except at 1.
    unfold bind at 1. unfold do_hash at 1.
    destruct (get_file_hash (world st) target) as [target_hash|e].
    + case_bool_decide as Hhash.
      * rewrite try_except_reraise. unfold bind at 1.
        unfold do_unlink, lift_change.
        destruct (unlink (world st) original) as [w1 [e|]].
        -- simpl. rewrite Hgen. unfold rename_away. simpl world.
           by destruct (first_free_sibling w1 target).
        -- done.
      * simpl. rewrite Hgen. unfold rename_away.
        by destruct (first_free_sibling (world st) target).
    + simpl. rewrite Hgen. unfold rename_away.
      by destruct (first_free_sibling (world st) target).
  - intros st1. split; [apply generate_unique_path_spec|].
    pose proof (first_free_sibling_spec (world st1) target) as Hspec.
    unfold rename_away.
    destruct (first_free_sibling (world st1) target) as [unique|].
    + split; [done|]. apply relocate_steps.
    + done.
Qed.

End OrganizerFacts.

Section OrganizerExamples.
Import PyStr Pathlib Paths Sys Organizer SimpleFS Scenarios.

Lemma organize_book_existing_target_witness :
  organize_book library book_a (mkState fs_same_content []) =
    (mkState (delete "/in/a.epub" fs_same_content) [Unlink source_a],
     Ok (book_a, Some "/out/Author/Title/a.epub")) /\
  organize_book library book_a (mkState fs_other_content []) =
    (mkState (<["/out/Author/Title/a_1.epub" := "H"]> (delete "/in/a.epub" fs_other_content))
             [Mkdir (parent target_a); Move "/in/a.epub" "/out/Author/Title/a_1.epub"],
     Ok (book_a, Some "/out/Author/Title/a_1.epub")).
Proof.
  split.
  - rewrite (proj1 (organize_book_existing_target library book_a
                      (mkState fs_same_content []) source_a target_a
                      eq_refl ltac:(by vm_compute) ltac:(by vm_compute)
                      ltac:(by vm_compute))).
    by vm_compute.
  - rewrite (proj1 (organize_book_existing_target library book_a
                      (mkState fs_other_content []) source_a target_a
                      eq_refl ltac:(by vm_compute) ltac:(by vm_compute)
                      ltac:(by vm_compute))).
    by vm_compute.
Defined.

End OrganizerExamples.

(** * Properties of the organization service *)

Section ServiceFacts.
Import PyStr Pathlib Paths Sys Organizer OrganizationService.
Context {W : Type} `{FileSystem W}.
Variable uuid_of : string -> option UUID.

Lemma found_at_target_spec (w : W) (book : Book) (expected : Path) :
  found_at_target w book expected = true <->
  path_exists w expected = true /\ get_file_hash w expected = Ok (file_hash book).
Proof.
  unfold found_at_target. destruct (path_exists w expected).
  - destruct (get_file_hash w expected) as [h|e].
    + rewrite bool_decide_eq_true. split.
      * by intros ->.
      * by intros [_ [= ->]].
    + split; [done|]. by intros [_ ?].
  - split; [done|]. by intros [? _].
Qed.

(** C6.  Let organization be enabled, let the job name a stored book, and
    let the book's current path not exist.  If the expected path exists and
    hashes, without error, to [book.file_hash], the stage stores the book with
    [file_path] set to the expected path (and [updated_at] refreshed) and
    finishes normally; it calls neither [unlink] nor [mkdir] nor [move] and
    leaves the file system as it is.  In every other case (expected path
    missing, hash mismatch, hash error) it raises [FileNotFoundError] and the
    book table and the file system are unchanged. *)
Theorem process_job_source_missing
    (settings : Settings) (now : datetime) (payload : gmap string string)
    (st : fs_state W) (books : BookTable)
    (book_id_str : string) (book_id : UUID) (book : Book) (current expected : Path)
    (Henabled : ORGANIZE_LIBRARY settings = true)
    (Hpayload : payload !! "book_id" = Some book_id_str)
    (Hnonempty : book_id_str <> EmptyString)
    (Huuid : uuid_of book_id_str = Some book_id)
    (Hbook : books !! book_id = Some book)
    (Hpaths : get_organize_path settings book = (current, expected))
    (Hmissing : path_exists (world st) current = false) :
  process_job uuid_of settings now payload st books =
    (if found_at_target (world st) book expected
     then (st,
           <[book_id := mark_updated now (set_file_path (str expected) book)]> books,
           Ok tt)
     else (st, books,
           Raise (FileNotFoundError
                    ("Source file " +:+ str current +:+ " not found")))) /\
  (found_at_target (world st) book expected = true <->
     path_exists (world st) expected = true /\
     get_file_hash (world st) expected = Ok (file_hash book)) /\
  file_path (mark_updated now (set_file_path (str expected) book)) = str expected.
Proof.
  split; [|split; [apply found_at_target_spec|done]].
  unfold process_job. rewrite Henabled, Hpayload. cbn [negb nonempty].
  rewrite bool_decide_eq_false_2 by done.
  rewrite Huuid, Hbook, Hpaths, Hmissing. done.
Qed.

End ServiceFacts.

Section ServiceExamples.
Import PyStr Pathlib Paths Sys Organizer OrganizationService SimpleFS Scenarios.

Lemma process_job_source_missing_witness :
  process_job uuid_of_example library 99 job_a (mkState fs_moved []) books_a =
    (mkState fs_moved [],
     <[5%N := mark_updated 99 (set_file_path "/out/Author/Title/a.epub" book_a)]> books_a,
     Ok tt) /\
  process_job uuid_of_example library 99 job_a (mkState ∅ []) books_a =
    (mkState ∅ [], books_a,
     Raise (FileNotFoundError "Source file /in/a.epub not found")).
Proof.
  split.
  - rewrite (proj1 (process_job_source_missing uuid_of_example library 99 job_a
                      (mkState fs_moved []) books_a
                      "00000000-0000-0000-0000-000000000005" 5%N book_a
                      source_a target_a
                      eq_refl eq_refl ltac:(done) eq_refl eq_refl
                      ltac:(by vm_compute) ltac:(by vm_compute))).
    by vm_compute.
  - rewrite (proj1 (process_job_source_missing uuid_of_example library 99 job_a
                      (mkState ∅ []) books_a
                      "00000000-0000-0000-0000-000000000005" 5%N book_a
                      source_a target_a
                      eq_refl eq_refl ltac:(done) eq_refl eq_refl
                      ltac:(by vm_compute) ltac:(by vm_compute))).
    by vm_compute.
Defined.

End ServiceExamples.

(** * The repository's tests, replayed on the embedding *)

Section ReplayedTests.
Import PyStr Pathlib Paths Sys Organizer OrganizationService.
Import TaskQueue Worker QueueRuns SimpleFS LockedFS Scenarios.

(** tests/unit/utils/test_paths.py *)
Example test_basic_sanitization :
  sanitize_filename "valid_filename.txt" = "valid_filename.txt".
Proof. by vm_compute. Qed.

Example test_replaces_invalid_chars :
  sanitize_filename "file/with/slashes.txt" = "file_with_slashes.txt" /\
  sanitize_filename "file:with:colons.txt" = "file_with_colons.txt".
Proof. by vm_compute. Qed.

Example test_truncates_long_filename :
  let sanitized := sanitize_filename (text (repeat "a"%char 255 ++ chars ".txt")) in
  len sanitized = 200%nat /\
  sanitized = text (repeat "a"%char 196 ++ chars ".txt").
Proof. by vm_compute. Qed.

Example test_basic_rendering :
  str (render "{author}/{title}"
         (<["author" := Some "Author Name"]> (<["title" := Some "Book Title"]> ∅)))
    = "Author Name/Book Title".
Proof. by vm_compute. Qed.

Example test_rendering_missing_all_fields_fallback :
  str (render "{author}/{title}" (<["author" := None]> (<["title" := None]> ∅))) = ".".
Proof. by vm_compute. Qed.

Example test_sanitization :
  str (render "{title}" (<["title" := Some "Title/With:Invalid*Chars"]> ∅))
    = "Title_With_Invalid_Chars".
Proof. by vm_compute. Qed.

Example test_whitespace_stripping :
  str (render "{author}/{title}"
         (<["author" := Some " Author "]> (<["title" := Some " Title. "]> ∅)))
    = "Author/Title".
Proof. by vm_compute. Qed.

(** tests/unit/components/test_organizer.py *)
Example test_organize_skips_if_already_in_place :
  snd (organize_book library (set_file_path "/out/Author/Title/a.epub" book_a)
         (mkState fs_moved []))
    = Ok (set_file_path "/out/Author/Title/a.epub" book_a, None).
Proof. by vm_compute. Qed.

Example test_deduplication_delete_fails_falls_back_to_rename :
  let (st, r) := organize_book library book_a (mkState (Locked fs_same_content) []) in
  calls st = [Unlink source_a; Mkdir (parent target_a);
              Move "/in/a.epub" "/out/Author/Title/a_1.epub"] /\
  r = Ok (book_a, Some "/out/Author/Title/a_1.epub").
Proof. by vm_compute. Qed.

(** tests/integration/test_job_queue.py *)
Example test_fetch_next_task_fifo_order :
  let db0 := run [ (1, OpEnqueue 11%N "INGEST" {[ "order" := "1" ]});
                   (2, OpEnqueue 12%N "INGEST" {[ "order" := "2" ]});
                   (3, OpEnqueue 13%N "INGEST" {[ "order" := "3" ]}) ] ∅ in
  let (db1, first) := fetch_next_task 4 db0 in
  let (db2, second) := fetch_next_task 5 db1 in
  fst <$> first = Some 11%N /\ fst <$> second = Some 12%N /\
  (status ∘ snd) <$> first = Some PROCESSING.
Proof. by vm_compute. Qed.

Example test_recover_stale_tasks :
  let stale := mkTask "INGEST" ∅ PROCESSING 0 3 0 (Some 0) None None None in
  let (db, recovered) :=
    recover_stale_tasks (timedelta_minutes 120) (<[1%N := stale]> ∅) in
  recovered = 1%nat /\ status <$> db !! 1%N = Some PENDING /\
  retry_count <$> db !! 1%N = Some 1%nat.
Proof. by vm_compute. Qed.

(** tests/unit/test_worker.py *)
Example test_worker_moves_to_dead_letter_after_max_retries :
  let task := mkTask "INGEST" ∅ PROCESSING 3 3 0 (Some 0) None None None in
  let db := _process_task 1 (1%N, task) failing_registry (<[1%N := task]> ∅) in
  status <$> db !! 1%N = Some DEAD_LETTER /\
  error_message <$> db !! 1%N = Some (Some "IOError: disk").
Proof. by vm_compute. Qed.

End ReplayedTests.

(** * Further properties of the task queue *)

Section MoreQueueFacts.
Import TaskQueue QueueRuns QueueStats.





















End MoreQueueFacts.

(** * Further properties of the worker *)

Section MoreWorkerFacts.
Import TaskQueue Worker WorkerLoop QueueRuns.











End MoreWorkerFacts.

(** * Further properties of path templating and sanitization *)

Section MorePathFacts.
Import PyStr Pathlib Paths.



End MorePathFacts.
